(** * PICMI diagnostics: a shallow embedding of [PICMI_Python/diagnostics.py]

    The five diagnostic classes of the PICMI standard are plain attribute
    holders: each has a single operation, its constructor.  The embedding
    keeps what the Python code relies on:

    - values are immutable scalars or references into a heap of objects
      (instances with an attribute dictionary, and lists);
    - a constructor call allocates the instance, binds the call's positional
      and keyword arguments to the signature of [__init__] (which may raise
      [TypeError]), and runs the body, which assigns and reads attributes
      (the latter may raise [AttributeError]);
    - default arguments are evaluated once, when the [def] statement runs, so
      the default [data_list] of a class is one list object on the heap;
    - every attribute read is recorded, so that "the grid is not consulted"
      is a statement about the run. *)

From stdpp Require Import base option list gmap strings.

(** ** Python values, objects and the heap *)

Module Py.

(** An address is an index into the heap. *)
Abbreviation loc := nat.

Inductive pyval : Type :=
  | VNone
  | VBool (b : bool)
  | VInt (z : Z)
  | VStr (s : string)
  | VRef (l : loc).

#[global] Instance pyval_eq_dec : EqDecision pyval.
Proof. solve_decision. Defined.

#[global] Instance pyval_inhabited : Inhabited pyval := populate VNone.

(** [x is None] *)
Definition is_None (v : pyval) : bool :=
  match v with VNone => true | _ => false end.

Inductive pyobj : Type :=
  | OList (items : list pyval)
  | OInst (cls : string) (attrs : gmap string pyval).

Inductive exn : Type :=
  | TypeError
  | AttributeError.

#[global] Instance exn_eq_dec : EqDecision exn.
Proof. solve_decision. Defined.

Inductive outcome (A : Type) : Type :=
  | Ok (a : A)
  | Raise (e : exn).
Arguments Ok {A} a.
Arguments Raise {A} e.

(** The interpreter state: the heap (an object's address is its index) and
    the log of the attribute reads performed so far, oldest first. *)
Record state : Type := State {
  heap : list pyobj;
  reads : list (pyval * string)
}.

Definition with_heap (h : list pyobj) (s : state) : state :=
  State h (reads s).

Definition M (A : Type) : Type := state → outcome A * state.

#[global] Instance M_ret : MRet M := λ A a s, (Ok a, s).

#[global] Instance M_bind : MBind M := λ A B f m s,
  match m s with
  | (Ok a, s') => f a s'
  | (Raise e, s') => (Raise e, s')
  end.

Definition raise {A : Type} (e : exn) : M A := λ s, (Raise e, s).

(** Allocation of a new object. *)
Definition alloc (o : pyobj) : M loc := λ s,
  (Ok (length (heap s)), with_heap (heap s ++ [o]) s).

(** What [v.name] evaluates to in heap [h], for a data attribute: the
    entry of the instance's own dictionary.  [None], numbers, strings and
    lists have none of the attribute names this module reads.  Names that
    Python finds on the class only (methods such as [handle_init]) are not
    data attributes and are outside this function. *)
Definition lookup_attr (h : list pyobj) (v : pyval) (name : string)
  : outcome pyval :=
  match v with
  | VRef l =>
      match h !! l with
      | Some (OInst _ attrs) =>
          match attrs !! name with
          | Some x => Ok x
          | None => Raise AttributeError
          end
      | _ => Raise AttributeError
      end
  | _ => Raise AttributeError
  end.

(** [v.name], logged. *)
Definition getattr (v : pyval) (name : string) : M pyval := λ s,
  (lookup_attr (heap s) v name,
   State (heap s) (reads s ++ [(v, name)])).

(** [v.name = x] *)
Definition setattr (v : pyval) (name : string) (x : pyval) : M unit := λ s,
  match v with
  | VRef l =>
      match heap s !! l with
      | Some (OInst c attrs) =>
          (Ok (), with_heap (<[l := OInst c (<[name := x]> attrs)]> (heap s)) s)
      | _ => (Raise AttributeError, s)
      end
  | _ => (Raise AttributeError, s)
  end.

(** *** Functions and calls *)

Record param : Type := Param {
  pname : string;
  pdefault : option pyval
}.

(** Binding of a call's arguments to positional-or-keyword parameters.
    Every failure is a [TypeError]: too many positional arguments, a
    parameter given both positionally and by keyword, a parameter without
    default left unfilled. *)
Fixpoint bind_params (ps : list param) (args : list pyval)
    (kwargs : gmap string pyval) : outcome (gmap string pyval) :=
  match ps with
  | [] =>
      match args with
      | [] => Ok ∅
      | _ :: _ => Raise TypeError
      end
  | p :: ps' =>
      match args with
      | a :: args' =>
          match kwargs !! pname p with
          | Some _ => Raise TypeError
          | None =>
              match bind_params ps' args' kwargs with
              | Ok b => Ok (<[pname p := a]> b)
              | Raise e => Raise e
              end
          end
      | [] =>
          match kwargs !! pname p, pdefault p with
          | Some v, _ | None, Some v =>
              match bind_params ps' [] kwargs with
              | Ok b => Ok (<[pname p := v]> b)
              | Raise e => Raise e
              end
          | None, None => Raise TypeError
          end
      end
  end.

(** The keyword arguments that name no parameter: what [**kw] receives. *)
Definition extras (ps : list param) (kwargs : gmap string pyval)
  : gmap string pyval :=
  filter (λ kv, kv.1 ∉ pname <$> ps) kwargs.

(** A function [def f(p1, ..., pn, **kw)]: its parameters and its body, run
    on the local variables and on [kw]. *)
Record pyfunction : Type := PyFunction {
  fparams : list param;
  fbody : gmap string pyval → gmap string pyval → M unit
}.

Definition call (f : pyfunction) (args : list pyval)
    (kwargs : gmap string pyval) : M unit :=
  match bind_params (fparams f) args kwargs with
  | Ok b => fbody f b (extras (fparams f) kwargs)
  | Raise e => raise e
  end.

(** Instantiation of a class whose [__init__] is [init], on positional
    arguments [args] and keyword arguments [kwargs]: the instance is
    allocated, [__init__] runs on it, and the instance is the result. *)
Definition instantiate (cls : string) (init : pyfunction)
    (args : list pyval) (kwargs : gmap string pyval) : M pyval :=
  l ← alloc (OInst cls ∅);
  call init (VRef l :: args) kwargs ;;
  mret (VRef l).

(** The value a call passes for parameter [name], if any, positionally or
    by keyword. *)
Fixpoint passed (ps : list param) (args : list pyval)
    (kwargs : gmap string pyval) (name : string) : option pyval :=
  match ps with
  | [] => None
  | p :: ps' =>
      if decide (pname p = name)
      then match args with a :: _ => Some a | [] => kwargs !! name end
      else passed ps' (tail args) kwargs name
  end.

(** The default of parameter [name]. *)
Fixpoint default_of (ps : list param) (name : string) : option pyval :=
  match ps with
  | [] => None
  | p :: ps' =>
      if decide (pname p = name) then pdefault p else default_of ps' name
  end.

End Py.
Import Py.

(** ** The base class *)

Module base.

(** Modelled from the spec: [_ClassWithInit.handle_init], imported from
    [PICMI_Python/base.py], which is not among the sources.  The spec has
    every constructor hand its leftover keyword arguments to this shared
    helper, which stores them on the object as additional named attributes
    rather than rejecting them, and does not fail. *)
Definition handle_init (self : pyval) (kw : gmap string pyval) : M unit := λ s,
  match self with
  | VRef l =>
      match heap s !! l with
      | Some (OInst c attrs) =>
          (Ok (), with_heap (<[l := OInst c (kw ∪ attrs)]> (heap s)) s)
      | _ => (Ok (), s)
      end
  | _ => (Ok (), s)
  end.

End base.

(** ** [diagnostics.py] *)

Module diagnostics.

(** *** Simulation frame diagnostics *)

Definition PICMI_FieldDiagnostic_body
    (self grid period data_list write_dir step_min step_max
     number_of_cells lower_bound upper_bound : pyval)
    (kw : gmap string pyval) : M unit :=
  setattr self "grid" grid ;;
  setattr self "period" period ;;
  setattr self "data_list" data_list ;;
  setattr self "write_dir" write_dir ;;
  setattr self "step_min" step_min ;;
  setattr self "step_max" step_max ;;
  number_of_cells ←
    (if is_None number_of_cells then getattr grid "number_of_cells"
     else mret number_of_cells);
  lower_bound ←
    (if is_None lower_bound then getattr grid "lower_bound"
     else mret lower_bound);
  upper_bound ←
    (if is_None upper_bound then getattr grid "upper_bound"
     else mret upper_bound);
  setattr self "number_of_cells" number_of_cells ;;
  setattr self "lower_bound" lower_bound ;;
  setattr self "upper_bound" upper_bound ;;
  base.handle_init self kw.

(** [def __init__(self, grid, period = 1, data_list = ["rho", "E", "B", "J"],
    write_dir = None, step_min = None, step_max = None,
    number_of_cells = None, lower_bound = None, upper_bound = None, **kw)];
    [data_list_default] is the list object the [def] statement built. *)
Definition PICMI_FieldDiagnostic__init__ (data_list_default : pyval)
  : pyfunction :=
  {| fparams :=
       [ Param "self" None;
         Param "grid" None;
         Param "period" (Some (VInt 1));
         Param "data_list" (Some data_list_default);
         Param "write_dir" (Some VNone);
         Param "step_min" (Some VNone);
         Param "step_max" (Some VNone);
         Param "number_of_cells" (Some VNone);
         Param "lower_bound" (Some VNone);
         Param "upper_bound" (Some VNone) ];
     fbody := λ b kw,
       PICMI_FieldDiagnostic_body
         (b !!! "self") (b !!! "grid") (b !!! "period") (b !!! "data_list")
         (b !!! "write_dir") (b !!! "step_min") (b !!! "step_max")
         (b !!! "number_of_cells") (b !!! "lower_bound") (b !!! "upper_bound")
         kw |}.

Definition PICMI_ElectrostaticFieldDiagnostic_body
    (self grid period data_list write_dir step_min step_max
     number_of_cells lower_bound upper_bound : pyval)
    (kw : gmap string pyval) : M unit :=
  setattr self "grid" grid ;;
  setattr self "period" period ;;
  setattr self "data_list" data_list ;;
  setattr self "write_dir" write_dir ;;
  setattr self "step_min" step_min ;;
  setattr self "step_max" step_max ;;
  number_of_cells ←
    (if is_None number_of_cells then getattr grid "number_of_cells"
     else mret number_of_cells);
  lower_bound ←
    (if is_None lower_bound then getattr grid "lower_bound"
     else mret lower_bound);
  upper_bound ←
    (if is_None upper_bound then getattr grid "upper_bound"
     else mret upper_bound);
  setattr self "number_of_cells" number_of_cells ;;
  setattr self "lower_bound" lower_bound ;;
  setattr self "upper_bound" upper_bound ;;
  base.handle_init self kw.

(** Same signature as above, with [data_list = ["rho", "phi"]]. *)
Definition PICMI_ElectrostaticFieldDiagnostic__init__
    (data_list_default : pyval) : pyfunction :=
  {| fparams :=
       [ Param "self" None;
         Param "grid" None;
         Param "period" (Some (VInt 1));
         Param "data_list" (Some data_list_default);
         Param "write_dir" (Some VNone);
         Param "step_min" (Some VNone);
         Param "step_max" (Some VNone);
         Param "number_of_cells" (Some VNone);
         Param "lower_bound" (Some VNone);
         Param "upper_bound" (Some VNone) ];
     fbody := λ b kw,
       PICMI_ElectrostaticFieldDiagnostic_body
         (b !!! "self") (b !!! "grid") (b !!! "period") (b !!! "data_list")
         (b !!! "write_dir") (b !!! "step_min") (b !!! "step_max")
         (b !!! "number_of_cells") (b !!! "lower_bound") (b !!! "upper_bound")
         kw |}.

Definition PICMI_ParticleDiagnostic_body
    (self period species data_list write_dir step_min step_max : pyval)
    (kw : gmap string pyval) : M unit :=
  setattr self "period" period ;;
  setattr self "species" species ;;
  setattr self "data_list" data_list ;;
  setattr self "write_dir" write_dir ;;
  setattr self "step_min" step_min ;;
  setattr self "step_max" step_max ;;
  base.handle_init self kw.

(** [def __init__(self, period = 1, species = None,
    data_list = ["position", "momentum", "weighting"], write_dir = None,
    step_min = None, step_max = None, **kw)] *)
Definition PICMI_ParticleDiagnostic__init__ (data_list_default : pyval)
  : pyfunction :=
  {| fparams :=
       [ Param "self" None;
         Param "period" (Some (VInt 1));
         Param "species" (Some VNone);
         Param "data_list" (Some data_list_default);
         Param "write_dir" (Some VNone);
         Param "step_min" (Some VNone);
         Param "step_max" (Some VNone) ];
     fbody := λ b kw,
       PICMI_ParticleDiagnostic_body
         (b !!! "self") (b !!! "period") (b !!! "species") (b !!! "data_list")
         (b !!! "write_dir") (b !!! "step_min") (b !!! "step_max") kw |}.

(** *** Lab frame diagnostics *)

Definition PICMI_LabFrameFieldDiagnostic_body
    (self num_snapshots dt_snapshots data_list write_dir : pyval)
    (kw : gmap string pyval) : M unit :=
  setattr self "num_snapshots" num_snapshots ;;
  setattr self "dt_snapshots" dt_snapshots ;;
  setattr self "data_list" data_list ;;
  setattr self "write_dir" write_dir ;;
  base.handle_init self kw.

(** [def __init__(self, num_snapshots, dt_snapshots,
    data_list = ["rho", "E", "B", "J"], write_dir = None, **kw)] *)
Definition PICMI_LabFrameFieldDiagnostic__init__ (data_list_default : pyval)
  : pyfunction :=
  {| fparams :=
       [ Param "self" None;
         Param "num_snapshots" None;
         Param "dt_snapshots" None;
         Param "data_list" (Some data_list_default);
         Param "write_dir" (Some VNone) ];
     fbody := λ b kw,
       PICMI_LabFrameFieldDiagnostic_body
         (b !!! "self") (b !!! "num_snapshots") (b !!! "dt_snapshots")
         (b !!! "data_list") (b !!! "write_dir") kw |}.

Definition PICMI_LabFrameParticleDiagnostic_body
    (self num_snapshots dt_snapshots species data_list write_dir : pyval)
    (kw : gmap string pyval) : M unit :=
  setattr self "num_snapshots" num_snapshots ;;
  setattr self "dt_snapshots" dt_snapshots ;;
  setattr self "species" species ;;
  setattr self "data_list" data_list ;;
  setattr self "write_dir" write_dir ;;
  base.handle_init self kw.

(** [def __init__(self, num_snapshots, dt_snapshots, species = None,
    data_list = ["position", "momentum", "weighting"], write_dir = None,
    **kw)] *)
Definition PICMI_LabFrameParticleDiagnostic__init__
    (data_list_default : pyval) : pyfunction :=
  {| fparams :=
       [ Param "self" None;
         Param "num_snapshots" None;
         Param "dt_snapshots" None;
         Param "species" (Some VNone);
         Param "data_list" (Some data_list_default);
         Param "write_dir" (Some VNone) ];
     fbody := λ b kw,
       PICMI_LabFrameParticleDiagnostic_body
         (b !!! "self") (b !!! "num_snapshots") (b !!! "dt_snapshots")
         (b !!! "species") (b !!! "data_list") (b !!! "write_dir") kw |}.

(** *** The module *)

Inductive diag_class : Type :=
  | PICMI_FieldDiagnostic
  | PICMI_ElectrostaticFieldDiagnostic
  | PICMI_ParticleDiagnostic
  | PICMI_LabFrameFieldDiagnostic
  | PICMI_LabFrameParticleDiagnostic.

#[global] Instance diag_class_eq_dec : EqDecision diag_class.
Proof. solve_decision. Defined.

Definition class_name (c : diag_class) : string :=
  match c with
  | PICMI_FieldDiagnostic => "PICMI_FieldDiagnostic"
  | PICMI_ElectrostaticFieldDiagnostic => "PICMI_ElectrostaticFieldDiagnostic"
  | PICMI_ParticleDiagnostic => "PICMI_ParticleDiagnostic"
  | PICMI_LabFrameFieldDiagnostic => "PICMI_LabFrameFieldDiagnostic"
  | PICMI_LabFrameParticleDiagnostic => "PICMI_LabFrameParticleDiagnostic"
  end.

(** The list literal in the signature of each class's [__init__]. *)
Definition data_list_literal (c : diag_class) : list pyval :=
  match c with
  | PICMI_FieldDiagnostic => [VStr "rho"; VStr "E"; VStr "B"; VStr "J"]
  | PICMI_ElectrostaticFieldDiagnostic => [VStr "rho"; VStr "phi"]
  | PICMI_ParticleDiagnostic =>
      [VStr "position"; VStr "momentum"; VStr "weighting"]
  | PICMI_LabFrameFieldDiagnostic => [VStr "rho"; VStr "E"; VStr "B"; VStr "J"]
  | PICMI_LabFrameParticleDiagnostic =>
      [VStr "position"; VStr "momentum"; VStr "weighting"]
  end.

(** What executing the module leaves behind: for each class, the object its
    [def __init__] evaluated as the default of [data_list]. *)
Definition pymodule : Type := diag_class → pyval.

Definition init_of (m : pymodule) (c : diag_class) : pyfunction :=
  match c with
  | PICMI_FieldDiagnostic =>
      PICMI_FieldDiagnostic__init__ (m c)
  | PICMI_ElectrostaticFieldDiagnostic =>
      PICMI_ElectrostaticFieldDiagnostic__init__ (m c)
  | PICMI_ParticleDiagnostic =>
      PICMI_ParticleDiagnostic__init__ (m c)
  | PICMI_LabFrameFieldDiagnostic =>
      PICMI_LabFrameFieldDiagnostic__init__ (m c)
  | PICMI_LabFrameParticleDiagnostic =>
      PICMI_LabFrameParticleDiagnostic__init__ (m c)
  end.

(** A list display [[x; ...]]: a new list object. *)
Definition new_list (items : list pyval) : M pyval :=
  l ← alloc (OList items); mret (VRef l).

(** Execution of the module: the five class statements in source order,
    each evaluating the default list of its [__init__] once. *)
Definition exec_module : M pymodule :=
  d1 ← new_list (data_list_literal PICMI_FieldDiagnostic);
  d2 ← new_list (data_list_literal PICMI_ElectrostaticFieldDiagnostic);
  d3 ← new_list (data_list_literal PICMI_ParticleDiagnostic);
  d4 ← new_list (data_list_literal PICMI_LabFrameFieldDiagnostic);
  d5 ← new_list (data_list_literal PICMI_LabFrameParticleDiagnostic);
  mret (λ c,
    match c with
    | PICMI_FieldDiagnostic => d1
    | PICMI_ElectrostaticFieldDiagnostic => d2
    | PICMI_ParticleDiagnostic => d3
    | PICMI_LabFrameFieldDiagnostic => d4
    | PICMI_LabFrameParticleDiagnostic => d5
    end).

(** The constructor call [c(args..., kwargs...)]. *)
Definition new (m : pymodule) (c : diag_class) (args : list pyval)
    (kwargs : gmap string pyval) : M pyval :=
  instantiate (class_name c) (init_of m c) args kwargs.

End diagnostics.
Import diagnostics.

(** ** Vocabulary of the properties *)

(** The local variables of [__init__] for the call [c(args..., kwargs...)]
    made in state [s]: [self] is the instance about to be allocated. *)
Definition bound_args (m : pymodule) (c : diag_class) (s : state)
    (args : list pyval) (kwargs : gmap string pyval)
  : outcome (gmap string pyval) :=
  bind_params (fparams (init_of m c)) (VRef (length (heap s)) :: args) kwargs.

(** The parameters of a constructor call: those of [__init__] after [self]. *)
Definition signature (m : pymodule) (c : diag_class) : list param :=
  tail (fparams (init_of m c)).

(** What the caller wrote for parameter [name]; [None] when it is omitted. *)
Definition supplied (m : pymodule) (c : diag_class) (args : list pyval)
    (kwargs : gmap string pyval) (name : string) : option pyval :=
  passed (signature m c) args kwargs name.

(** The parameter names of [__init__], [self] included. *)
Definition param_names (c : diag_class) : list string :=
  pname <$> fparams (init_of (λ _, VNone) c).

Definition is_field (c : diag_class) : bool :=
  match c with
  | PICMI_FieldDiagnostic | PICMI_ElectrostaticFieldDiagnostic => true
  | _ => false
  end.


Definition geometry : list string :=
  ["number_of_cells"; "lower_bound"; "upper_bound"].

(** The outcome of [if x is None: x = grid.name] in heap [h], and the reads
    it performs. *)
Definition geometry_value (h : list pyobj) (grid x : pyval) (name : string)
  : outcome pyval :=
  if is_None x then lookup_attr h grid name else Ok x.

Definition geometry_reads (grid x : pyval) (name : string)
  : list (pyval * string) :=
  if is_None x then [(grid, name)] else [].

(** The same for the geometry parameter [n] of a field diagnostic whose
    local variables are [b]. *)
Definition geometry_of (h : list pyobj) (b : gmap string pyval) (n : string)
  : outcome pyval :=
  geometry_value h (b !!! "grid") (b !!! n) n.

Definition geometry_log (b : gmap string pyval) (n : string)
  : list (pyval * string) :=
  geometry_reads (b !!! "grid") (b !!! n) n.

(** Whether geometry parameter [n] is left to the grid: omitted, or [None]. *)
Definition defaulted (m : pymodule) (c : diag_class) (args : list pyval)
    (kwargs : gmap string pyval) (n : string) : bool :=
  is_None (default VNone (supplied m c args kwargs n)).

(** What a simulation-frame field diagnostic needs from its grid: an
    attribute for each geometry parameter left to it.  Nothing is needed for
    the other classes. *)
Definition grid_suffices (m : pymodule) (c : diag_class) (args : list pyval)
    (kwargs : gmap string pyval) (s : state) : Prop :=
  is_field c = true →
  ∃ grid,
    supplied m c args kwargs "grid" = Some grid
    ∧ ∀ k, k ∈ geometry → defaulted m c args kwargs k = true →
           ∃ x, lookup_attr (heap s) grid k = Ok x.

(** The items of the list object [v] refers to. *)
Definition list_at (h : list pyobj) (v : pyval) : option (list pyval) :=
  match v with
  | VRef l => match h !! l with Some (OList items) => Some items | _ => None end
  | _ => None
  end.

(** No default list has been modified in place since the module ran. *)
Definition defaults_intact (m : pymodule) (s : state) : Prop :=
  ∀ c, list_at (heap s) (m c) = Some (data_list_literal c).

(** A sequence of constructor calls, run one after the other whatever each
    returns or raises. *)
Fixpoint construct_all (m : pymodule)
    (calls : list (diag_class * list pyval * gmap string pyval))
    (s : state) : state :=
  match calls with
  | [] => s
  | (c, args, kwargs) :: rest =>
      construct_all m rest (new m c args kwargs s).2
  end.

(** ** A session to evaluate on *)

(** The empty interpreter, and the module the diagnostics file leaves in it. *)
Definition empty_state : state := State [] [].

Definition loaded_module : pymodule :=
  match (exec_module empty_state).1 with
  | Ok m => m
  | Raise _ => λ _, VNone
  end.

(** A two-dimensional grid: the three lists and the grid instance are
    allocated after the module ran, at addresses 5 to 8. *)
Definition grid_attrs : gmap string pyval :=
  <["number_of_cells" := VRef 5]> (<["lower_bound" := VRef 6]>
  (<["upper_bound" := VRef 7]> ∅)).

Definition session : state :=
  State (heap (exec_module empty_state).2 ++
         [ OList [VInt 32; VInt 16];
           OList [VInt 0; VInt (-5)];
           OList [VInt 10; VInt 5];
           OInst "PICMI_Cartesian2DGrid" grid_attrs ]) [].

Definition the_grid : pyval := VRef 8.


(** * Properties *)

(** Membership of a literal in a literal list, by evaluation. *)
Ltac decide_elem := apply (bool_decide_unpack _); vm_compute; exact I.

(** Non-membership of a literal in a literal list. *)
Ltac decide_not_elem :=
  let H := fresh in
  intros H; apply (bool_decide_pack _) in H; vm_compute in H; exact H.

(** ** Argument binding *)

Section binding.
Context (kwargs : gmap string pyval).

Lemma bind_params_TypeError ps args e :
  bind_params ps args kwargs = Raise e → e = TypeError.
Proof.
  revert args. induction ps as [|p ps IH]; intros [|a args]; simpl.
  - discriminate.
  - congruence.
  - destruct (kwargs !! pname p), (pdefault p);
      try (destruct (bind_params ps [] kwargs) eqn:E;
           [discriminate | intros [= <-]; eauto]);
      congruence.
  - destruct (kwargs !! pname p); [congruence|].
    destruct (bind_params ps args kwargs) eqn:E;
      [discriminate | intros [= <-]; eauto].
Qed.

(** A successful binding gives every parameter the value passed for it,
    or else its default. *)
Lemma bind_params_lookup ps args b n :
  bind_params ps args kwargs = Ok b →
  b !! n = match passed ps args kwargs n with
           | Some v => Some v
           | None => default_of ps n
           end.
Proof.
  revert args b. induction ps as [|p ps IH]; intros args b; simpl.
  - destruct args; [|discriminate]. intros [= <-]. apply lookup_empty.
  - destruct args as [|a args].
    + destruct (kwargs !! pname p) as [v|] eqn:Ek.
      * destruct (bind_params ps [] kwargs) as [b'|] eqn:E; [|discriminate].
        intros [= <-]. case_decide as Hn.
        -- subst n. by rewrite lookup_insert_eq, Ek.
        -- rewrite lookup_insert_ne by done. by apply IH.
      * destruct (pdefault p) as [v|] eqn:Ed; [|discriminate].
        destruct (bind_params ps [] kwargs) as [b'|] eqn:E; [|discriminate].
        intros [= <-]. case_decide as Hn.
        -- subst n. by rewrite lookup_insert_eq, Ek.
        -- rewrite lookup_insert_ne by done. by apply IH.
    + destruct (kwargs !! pname p) eqn:Ek; [discriminate|].
      destruct (bind_params ps args kwargs) as [b'|] eqn:E; [|discriminate].
      intros [= <-]. case_decide as Hn.
      * subst n. by rewrite lookup_insert_eq.
      * rewrite lookup_insert_ne by done. by apply IH.
Qed.

(** A successful binding fills every parameter. *)
Lemma bind_params_filled ps args b p :
  bind_params ps args kwargs = Ok b → p ∈ ps → is_Some (b !! pname p).
Proof.
  revert args b. induction ps as [|q ps IH]; intros args b Hb Hp.
  - by apply elem_of_nil in Hp.
  - assert (∃ b' args' v, bind_params ps args' kwargs = Ok b'
                          ∧ b = <[pname q := v]> b') as (b' & args' & v & Hb' & ->).
    { simpl in Hb. destruct args as [|a args].
      - destruct (kwargs !! pname q), (pdefault q); try discriminate;
          (destruct (bind_params ps [] kwargs) eqn:E; [|discriminate]);
          injection Hb as <-; eauto.
      - destruct (kwargs !! pname q); [discriminate|].
        destruct (bind_params ps args kwargs) eqn:E; [|discriminate].
        injection Hb as <-; eauto. }
    destruct (decide (pname q = pname p)) as [->|Hne].
    + rewrite lookup_insert_eq. eauto.
    + rewrite lookup_insert_ne by done.
      apply elem_of_cons in Hp as [->|Hp]; [done|]. eauto.
Qed.

(** Nothing was bound to a name that is not a parameter. *)
Lemma bind_params_only ps args b n :
  bind_params ps args kwargs = Ok b → n ∉ pname <$> ps → b !! n = None.
Proof.
  intros Hb Hn. rewrite (bind_params_lookup _ _ _ _ Hb).
  clear Hb. revert args. induction ps as [|p ps IH]; intros args; [done|].
  simpl. apply not_elem_of_cons in Hn as [Hne Hn].
  rewrite !decide_False by done. by apply IH.
Qed.


(** The keyword arguments left for [kw] are those naming no parameter. *)
Lemma extras_lookup ps k :
  extras ps kwargs !! k =
    if decide (k ∈ pname <$> ps) then None else kwargs !! k.
Proof.
  unfold extras. case_decide as Hk.
  - apply map_lookup_filter_None. right. intros v _ Hn. by apply Hn.
  - destruct (kwargs !! k) as [v|] eqn:Ek.
    + by apply map_lookup_filter_Some.
    + apply map_lookup_filter_None. by left.
Qed.
End binding.

(** Binding looks at the keyword arguments only under the parameters'
    names. *)
Lemma bind_params_ext ps args (kw1 kw2 : gmap string pyval) :
  (∀ p, p ∈ ps → kw1 !! pname p = kw2 !! pname p) →
  bind_params ps args kw1 = bind_params ps args kw2.
Proof.
  revert args. induction ps as [|p ps IH]; intros args Hagree; [done|].
  simpl. rewrite <- (Hagree p) by apply list_elem_of_here.
  destruct args as [|a args].
  - rewrite (IH []); [done|]. intros q Hq. apply Hagree. by apply list_elem_of_further.
  - rewrite (IH args); [done|]. intros q Hq. apply Hagree. by apply list_elem_of_further.
Qed.

(** ** Attribute access on the instance under construction *)

Section fresh_instance.
Context (h : list pyobj) (c : string).

(** The instance under construction sits at the end of the heap. *)
Lemma setattr_self {A} a rs n x (k : unit → M A) :
  (setattr (VRef (length h)) n x ≫= k) (State (h ++ [OInst c a]) rs)
  = k () (State (h ++ [OInst c (<[n := x]> a)]) rs).
Proof.
  unfold mbind, M_bind, setattr, with_heap. simpl.
  rewrite list_lookup_middle by done.
  by rewrite insert_app_r_alt, Nat.sub_diag by done.
Qed.

Lemma handle_init_self a rs kw :
  base.handle_init (VRef (length h)) kw (State (h ++ [OInst c a]) rs)
  = (Ok (), State (h ++ [OInst c (kw ∪ a)]) rs).
Proof.
  unfold base.handle_init, with_heap. simpl.
  rewrite list_lookup_middle by done.
  by rewrite insert_app_r_alt, Nat.sub_diag by done.
Qed.

Lemma lookup_attr_self a n :
  lookup_attr (h ++ [OInst c a]) (VRef (length h)) n
  = match a !! n with Some x => Ok x | None => Raise AttributeError end.
Proof. unfold lookup_attr. by rewrite list_lookup_middle. Qed.

(** An attribute the new instance does not have yet reads the same with
    and without it on the heap, whatever it is read from. *)
Lemma lookup_attr_fresh a v n :
  a !! n = None →
  lookup_attr (h ++ [OInst c a]) v n = lookup_attr h v n.
Proof.
  intros Ha. destruct v as [| | | |l]; try done. unfold lookup_attr.
  destruct (decide (l < length h)) as [Hl|Hl].
  - by rewrite lookup_app_l.
  - rewrite (lookup_ge_None_2 h l) by lia.
    destruct (decide (l = length h)) as [->|Hne].
    + by rewrite list_lookup_middle, Ha.
    + rewrite lookup_ge_None_2; [done|]. rewrite length_app. simpl. lia.
Qed.

Lemma list_at_old a v items :
  list_at h v = Some items → list_at (h ++ [OInst c a]) v = Some items.
Proof.
  destruct v as [| | | |l]; try done. unfold list_at.
  destruct (h !! l) as [o|] eqn:E; [|done].
  by rewrite (lookup_app_l_Some _ _ _ _ E).
Qed.

(** [if x is None: x = grid.name], followed by the rest of the body. *)
Lemma geometry_default {A} h' rs grid x n (k : pyval → M A) :
  ((if is_None x then getattr grid n else mret x) ≫= k) (State h' rs)
  = match geometry_value h' grid x n with
    | Ok v => k v (State h' (rs ++ geometry_reads grid x n))
    | Raise e => (Raise e, State h' (rs ++ geometry_reads grid x n))
    end.
Proof.
  unfold geometry_value, geometry_reads, mbind, M_bind.
  destruct (is_None x); simpl.
  - by destruct (lookup_attr h' grid n).
  - by rewrite app_nil_r.
Qed.
End fresh_instance.

(** ** The constructor bodies in closed form *)

(** The attributes the simulation-frame field bodies assign before they
    look at the geometry. *)
Lemma field_body_run h c rs grid period data_list write_dir step_min step_max
    number_of_cells lower_bound upper_bound kw :
  let a6 : gmap string pyval :=
    <["step_max" := step_max]> (<["step_min" := step_min]>
    (<["write_dir" := write_dir]> (<["data_list" := data_list]>
    (<["period" := period]> (<["grid" := grid]> ∅))))) in
  let r1 := rs ++ geometry_reads grid number_of_cells "number_of_cells" in
  let r2 := r1 ++ geometry_reads grid lower_bound "lower_bound" in
  let r3 := r2 ++ geometry_reads grid upper_bound "upper_bound" in
  PICMI_FieldDiagnostic_body (VRef (length h)) grid period data_list write_dir
    step_min step_max number_of_cells lower_bound upper_bound kw
    (State (h ++ [OInst c ∅]) rs)
  = match geometry_value h grid number_of_cells "number_of_cells" with
    | Raise e => (Raise e, State (h ++ [OInst c a6]) r1)
    | Ok v1 =>
      match geometry_value h grid lower_bound "lower_bound" with
      | Raise e => (Raise e, State (h ++ [OInst c a6]) r2)
      | Ok v2 =>
        match geometry_value h grid upper_bound "upper_bound" with
        | Raise e => (Raise e, State (h ++ [OInst c a6]) r3)
        | Ok v3 =>
            (Ok (),
             State (h ++ [OInst c (kw ∪ <["upper_bound" := v3]>
                                   (<["lower_bound" := v2]>
                                   (<["number_of_cells" := v1]> a6)))]) r3)
        end
      end
    end.
Proof.
  intros a6 r1 r2 r3. unfold PICMI_FieldDiagnostic_body.
  rewrite !setattr_self. fold a6.
  assert (Hfresh : ∀ v n x, geometry_value (h ++ [OInst c a6]) v x n
                            = if decide (n ∈ geometry)
                              then geometry_value h v x n
                              else geometry_value (h ++ [OInst c a6]) v x n).
  { intros v n x. case_decide as Hn; [|done]. unfold geometry_value.
    destruct (is_None x); [|done]. apply lookup_attr_fresh.
    unfold geometry in Hn. set_unfold. by destruct Hn as [->|[->|[->|[]]]]. }
  rewrite geometry_default, Hfresh. simpl. fold r1.
  destruct (geometry_value h grid number_of_cells "number_of_cells"); [|done].
  rewrite geometry_default, Hfresh. simpl. fold r2.
  destruct (geometry_value h grid lower_bound "lower_bound"); [|done].
  rewrite geometry_default, Hfresh. simpl. fold r3.
  destruct (geometry_value h grid upper_bound "upper_bound"); [|done].
  rewrite !setattr_self. apply handle_init_self.
Qed.

(** The electrostatic body is the electromagnetic one, statement for
    statement. *)
Lemma electrostatic_body_eq :
  PICMI_ElectrostaticFieldDiagnostic_body = PICMI_FieldDiagnostic_body.
Proof. reflexivity. Qed.

Lemma particle_body_run h c rs period species data_list write_dir step_min
    step_max kw :
  PICMI_ParticleDiagnostic_body (VRef (length h)) period species data_list
    write_dir step_min step_max kw (State (h ++ [OInst c ∅]) rs)
  = (Ok (),
     State (h ++ [OInst c (kw ∪ <["step_max" := step_max]>
                           (<["step_min" := step_min]>
                           (<["write_dir" := write_dir]>
                           (<["data_list" := data_list]>
                           (<["species" := species]>
                           (<["period" := period]> ∅))))))]) rs).
Proof.
  unfold PICMI_ParticleDiagnostic_body.
  rewrite !setattr_self. apply handle_init_self.
Qed.

Lemma lab_frame_field_body_run h c rs num_snapshots dt_snapshots data_list
    write_dir kw :
  PICMI_LabFrameFieldDiagnostic_body (VRef (length h)) num_snapshots
    dt_snapshots data_list write_dir kw (State (h ++ [OInst c ∅]) rs)
  = (Ok (),
     State (h ++ [OInst c (kw ∪ <["write_dir" := write_dir]>
                           (<["data_list" := data_list]>
                           (<["dt_snapshots" := dt_snapshots]>
                           (<["num_snapshots" := num_snapshots]> ∅))))]) rs).
Proof.
  unfold PICMI_LabFrameFieldDiagnostic_body.
  rewrite !setattr_self. apply handle_init_self.
Qed.

Lemma lab_frame_particle_body_run h c rs num_snapshots dt_snapshots species
    data_list write_dir kw :
  PICMI_LabFrameParticleDiagnostic_body (VRef (length h)) num_snapshots
    dt_snapshots species data_list write_dir kw (State (h ++ [OInst c ∅]) rs)
  = (Ok (),
     State (h ++ [OInst c (kw ∪ <["write_dir" := write_dir]>
                           (<["data_list" := data_list]>
                           (<["species" := species]>
                           (<["dt_snapshots" := dt_snapshots]>
                           (<["num_snapshots" := num_snapshots]> ∅)))))]) rs).
Proof.
  unfold PICMI_LabFrameParticleDiagnostic_body.
  rewrite !setattr_self. apply handle_init_self.
Qed.

(** ** Constructor calls *)

(** A constructor call allocates the instance, binds the arguments and runs
    the body; the instance is the result when neither step raises. *)
Lemma new_run m c args kwargs s :
  new m c args kwargs s
  = let s1 := State (heap s ++ [OInst (class_name c) ∅]) (reads s) in
    match bound_args m c s args kwargs with
    | Raise e => (Raise e, s1)
    | Ok b =>
        match fbody (init_of m c) b (extras (fparams (init_of m c)) kwargs) s1
        with
        | (Ok _, s') => (Ok (VRef (length (heap s))), s')
        | (Raise e, s') => (Raise e, s')
        end
    end.
Proof.
  unfold new, instantiate, call, bound_args, mbind, M_bind, alloc, with_heap.
  simpl. destruct (bind_params _ _ kwargs) as [b|e]; [|done].
  by destruct (fbody _ _ _ _) as [[[]|e] s'].
Qed.

Lemma param_names_fparams m c : pname <$> fparams (init_of m c) = param_names c.
Proof. by destruct c. Qed.

Lemma self_is_param c : "self" ∈ param_names c.
Proof. destruct c; apply list_elem_of_here. Qed.

Section bound.
Context (m : pymodule) (c : diag_class) (s : state) (args : list pyval)
        (kwargs b : gmap string pyval).
Hypothesis Hb : bound_args m c s args kwargs = Ok b.

Lemma bound_args_self : b !!! "self" = VRef (length (heap s)).
Proof using Hb.
  apply lookup_total_correct.
  rewrite (bind_params_lookup _ _ _ _ "self" Hb). by destruct c.
Qed.

(** Every other local variable holds what the caller supplied, or else
    the default of the signature. *)
Lemma bound_args_lookup n :
  n ≠ "self" →
  b !! n = match supplied m c args kwargs n with
           | Some v => Some v
           | None => default_of (signature m c) n
           end.
Proof using Hb.
  intros Hn. rewrite (bind_params_lookup _ _ _ _ n Hb).
  unfold supplied, signature.
  destruct c; simpl;
    rewrite !(decide_False (P := "self" = n)) by done; reflexivity.
Qed.

Lemma bound_args_total n : n ∈ param_names c → b !! n = Some (b !!! n).
Proof using Hb.
  intros Hn. rewrite <- param_names_fparams with (m := m) in Hn.
  apply list_elem_of_fmap in Hn as (p & -> & Hp).
  destruct (bind_params_filled _ _ _ _ _ Hb Hp) as [v Hv].
  by rewrite (lookup_total_correct _ _ _ Hv).
Qed.

Lemma extras_param n :
  n ∈ param_names c → extras (fparams (init_of m c)) kwargs !! n = None.
Proof.
  intros Hn. rewrite extras_lookup, param_names_fparams.
  by rewrite decide_True.
Qed.

Lemma extras_other n :
  n ∉ param_names c →
  extras (fparams (init_of m c)) kwargs !! n = kwargs !! n.
Proof.
  intros Hn. rewrite extras_lookup, param_names_fparams.
  by rewrite decide_False.
Qed.
End bound.

(** The three classes that read nothing: the call succeeds as soon as its
    arguments bind, touches no other object, and the instance holds the
    local variables under their parameters' names and the extra keywords
    under theirs. *)
Lemma new_plain_run m c args kwargs s b :
  is_field c = false →
  bound_args m c s args kwargs = Ok b →
  ∃ attrs : gmap string pyval,
    new m c args kwargs s
    = (Ok (VRef (length (heap s))),
       State (heap s ++ [OInst (class_name c) attrs]) (reads s))
    ∧ (∀ n, n ∈ param_names c → n ≠ "self" → attrs !! n = b !! n)
    ∧ (∀ n, n ∉ param_names c → attrs !! n = kwargs !! n).
Proof.
  intros Hc Hb. rewrite new_run, Hb. cbv zeta.
  pose proof (bound_args_self _ _ _ _ _ _ Hb) as Hself.
  pose proof (bound_args_total _ _ _ _ _ _ Hb) as Htot.
  pose proof (extras_param m c kwargs) as Hpar.
  pose proof (extras_other m c kwargs) as Hoth.
  set (kw := extras (fparams (init_of m c)) kwargs) in *. clearbody kw.
  destruct c; try discriminate; simpl fbody; rewrite Hself.
  - rewrite particle_body_run. eexists. split; [done|]. split.
    + intros n Hn Hns. rewrite lookup_union_r by auto. rewrite (Htot n Hn).
      unfold param_names in Hn. simpl in Hn. set_unfold.
      destruct Hn as [->|[->|[->|[->|[->|[->|[->|[]]]]]]]];
        try done; by simplify_map_eq.
    + intros n Hn. rewrite lookup_union, (Hoth n Hn).
      unfold param_names in Hn. simpl in Hn. set_unfold.
      rewrite !lookup_insert_ne by naive_solver.
      rewrite lookup_empty. by destruct (kwargs !! n).
  - rewrite lab_frame_field_body_run. eexists. split; [done|]. split.
    + intros n Hn Hns. rewrite lookup_union_r by auto. rewrite (Htot n Hn).
      unfold param_names in Hn. simpl in Hn. set_unfold.
      destruct Hn as [->|[->|[->|[->|[->|[]]]]]];
        try done; by simplify_map_eq.
    + intros n Hn. rewrite lookup_union, (Hoth n Hn).
      unfold param_names in Hn. simpl in Hn. set_unfold.
      rewrite !lookup_insert_ne by naive_solver.
      rewrite lookup_empty. by destruct (kwargs !! n).
  - rewrite lab_frame_particle_body_run. eexists. split; [done|]. split.
    + intros n Hn Hns. rewrite lookup_union_r by auto. rewrite (Htot n Hn).
      unfold param_names in Hn. simpl in Hn. set_unfold.
      destruct Hn as [->|[->|[->|[->|[->|[->|[]]]]]]];
        try done; by simplify_map_eq.
    + intros n Hn. rewrite lookup_union, (Hoth n Hn).
      unfold param_names in Hn. simpl in Hn. set_unfold.
      rewrite !lookup_insert_ne by naive_solver.
      rewrite lookup_empty. by destruct (kwargs !! n).
Qed.

(** The two simulation-frame field classes: after binding, the three
    geometry parameters are resolved in source order, and the first
    attribute the grid lacks ends the call. *)
Lemma new_field_run m c args kwargs s b :
  is_field c = true →
  bound_args m c s args kwargs = Ok b →
  let kw := extras (fparams (init_of m c)) kwargs in
  let a6 : gmap string pyval :=
    <["step_max" := b !!! "step_max"]> (<["step_min" := b !!! "step_min"]>
    (<["write_dir" := b !!! "write_dir"]> (<["data_list" := b !!! "data_list"]>
    (<["period" := b !!! "period"]> (<["grid" := b !!! "grid"]> ∅))))) in
  let r1 := reads s ++ geometry_log b "number_of_cells" in
  let r2 := r1 ++ geometry_log b "lower_bound" in
  let r3 := r2 ++ geometry_log b "upper_bound" in
  let partial := heap s ++ [OInst (class_name c) a6] in
  new m c args kwargs s
  = match geometry_of (heap s) b "number_of_cells" with
    | Raise e => (Raise e, State partial r1)
    | Ok v1 =>
      match geometry_of (heap s) b "lower_bound" with
      | Raise e => (Raise e, State partial r2)
      | Ok v2 =>
        match geometry_of (heap s) b "upper_bound" with
        | Raise e => (Raise e, State partial r3)
        | Ok v3 =>
            (Ok (VRef (length (heap s))),
             State (heap s ++
                    [OInst (class_name c)
                       (kw ∪ <["upper_bound" := v3]> (<["lower_bound" := v2]>
                             (<["number_of_cells" := v1]> a6)))]) r3)
        end
      end
    end.
Proof.
  intros Hc Hb kw a6 r1 r2 r3 partial. rewrite new_run, Hb. cbv zeta.
  pose proof (bound_args_self _ _ _ _ _ _ Hb) as Hself. fold kw. clearbody kw.
  unfold geometry_of, partial, r3, r2, r1, geometry_log, a6.
  destruct c; try discriminate; simpl fbody; rewrite Hself;
    rewrite ?electrostatic_body_eq, field_body_run; cbv zeta;
    repeat (destruct (geometry_value _ _ _ _); [|done]); done.
Qed.

Section field.
Context (m : pymodule) (c : diag_class) (s : state) (args : list pyval)
        (kwargs b : gmap string pyval).
Hypothesis Hc : is_field c = true.
Hypothesis Hb : bound_args m c s args kwargs = Ok b.

(** The call raises exactly what the first failing grid read raises. *)
Lemma new_field_outcome :
  (new m c args kwargs s).1
  = match geometry_of (heap s) b "number_of_cells" with
    | Raise e => Raise e
    | Ok _ =>
      match geometry_of (heap s) b "lower_bound" with
      | Raise e => Raise e
      | Ok _ =>
        match geometry_of (heap s) b "upper_bound" with
        | Raise e => Raise e
        | Ok _ => Ok (VRef (length (heap s)))
        end
      end
    end.
Proof using Hc Hb.
  rewrite (new_field_run _ _ _ _ _ _ Hc Hb). cbv zeta.
  by repeat (destruct (geometry_of _ _ _); [|done]).
Qed.

(** On success, the attribute reads are those of the defaulted
    parameters, in source order, and the instance holds the resolved
    geometry, the other local variables, and the extra keywords. *)
Lemma new_field_success o s' :
  new m c args kwargs s = (Ok o, s') →
  ∃ (v1 v2 v3 : pyval) (attrs : gmap string pyval),
    geometry_of (heap s) b "number_of_cells" = Ok v1
    ∧ geometry_of (heap s) b "lower_bound" = Ok v2
    ∧ geometry_of (heap s) b "upper_bound" = Ok v3
    ∧ o = VRef (length (heap s))
    ∧ heap s' = heap s ++ [OInst (class_name c) attrs]
    ∧ reads s' = reads s ++ geometry_log b "number_of_cells"
                 ++ geometry_log b "lower_bound"
                 ++ geometry_log b "upper_bound"
    ∧ attrs !! "number_of_cells" = Some v1
    ∧ attrs !! "lower_bound" = Some v2
    ∧ attrs !! "upper_bound" = Some v3
    ∧ (∀ n, n ∈ param_names c → n ∉ geometry → n ≠ "self" →
            attrs !! n = b !! n)
    ∧ (∀ n, n ∉ param_names c → attrs !! n = kwargs !! n).
Proof using Hc Hb.
  rewrite (new_field_run _ _ _ _ _ _ Hc Hb). cbv zeta.
  pose proof (bound_args_total _ _ _ _ _ _ Hb) as Htot.
  pose proof (extras_param m c kwargs) as Hpar.
  pose proof (extras_other m c kwargs) as Hoth.
  set (kw := extras (fparams (init_of m c)) kwargs) in *. clearbody kw.
  destruct (geometry_of _ _ "number_of_cells") as [v1|]; [|done].
  destruct (geometry_of _ _ "lower_bound") as [v2|]; [|done].
  destruct (geometry_of _ _ "upper_bound") as [v3|]; [|done].
  intros [= <- <-]. exists v1, v2, v3. eexists.
  do 5 (split; [reflexivity|]). simpl.
  assert (Hgeo : ∀ n, n ∈ geometry → n ∈ param_names c).
  { intros n Hn. unfold geometry in Hn. set_unfold in Hn.
    destruct Hn as [->|[->|[->|[]]]]; destruct c; try discriminate;
      decide_elem. }
  split; [by rewrite <- !app_assoc|].
  split; [rewrite lookup_union_r by (apply Hpar, Hgeo; decide_elem);
          by simplify_map_eq|].
  split; [rewrite lookup_union_r by (apply Hpar, Hgeo; decide_elem);
          by simplify_map_eq|].
  split; [rewrite lookup_union_r by (apply Hpar, Hgeo; decide_elem);
          by simplify_map_eq|].
  split.
  - intros n Hn Hng Hns. rewrite lookup_union_r by auto.
    rewrite (Htot n Hn). unfold geometry in Hng.
    destruct c; try discriminate; unfold param_names in Hn; simpl in Hn;
      set_unfold;
      destruct Hn as [->|[->|[->|[->|[->|[->|[->|[->|[->|[->|[]]]]]]]]]]];
      try done; try (by simplify_map_eq); naive_solver.
  - intros n Hn. rewrite lookup_union, (Hoth n Hn).
    destruct c; try discriminate; unfold param_names in Hn; simpl in Hn;
      set_unfold; rewrite !lookup_insert_ne by naive_solver;
      rewrite lookup_empty; by destruct (kwargs !! n).
Qed.
End field.

(** A constructor call that returns an instance bound its arguments. *)
Lemma new_Ok_bound m c args kwargs s o s' :
  new m c args kwargs s = (Ok o, s') →
  ∃ b, bound_args m c s args kwargs = Ok b.
Proof.
  rewrite new_run. cbv zeta.
  destruct (bound_args m c s args kwargs) as [b|e]; [eauto|discriminate].
Qed.

(** The only thing a failed binding raises is [TypeError]; nothing was read. *)
Lemma new_unbound m c args kwargs s e :
  bound_args m c s args kwargs = Raise e →
  (new m c args kwargs s).1 = Raise TypeError
  ∧ reads (new m c args kwargs s).2 = reads s.
Proof.
  intros Hb. rewrite new_run, Hb. cbv zeta. simpl.
  by rewrite (bind_params_TypeError _ _ _ _ Hb).
Qed.

Section field_arguments.
Context (m : pymodule) (c : diag_class) (s : state) (args : list pyval)
        (kwargs b : gmap string pyval).
Hypothesis Hc : is_field c = true.
Hypothesis Hb : bound_args m c s args kwargs = Ok b.

(** [grid] has no default: a bound call supplied it. *)
Lemma field_grid_supplied :
  supplied m c args kwargs "grid" = Some (b !!! "grid").
Proof using Hc Hb.
  assert (Hin : "grid" ∈ param_names c)
    by (destruct c; try discriminate; decide_elem).
  pose proof (bound_args_total _ _ _ _ _ _ Hb _ Hin) as Hg.
  rewrite (bound_args_lookup _ _ _ _ _ _ Hb) in Hg by done.
  destruct (supplied m c args kwargs "grid"); [done|].
  destruct c; discriminate.
Qed.

(** A geometry parameter is [None] inside [__init__] when the caller
    omitted it or passed [None], and what the caller passed otherwise. *)
Lemma field_geometry_bound n :
  n ∈ geometry → b !!! n = default VNone (supplied m c args kwargs n).
Proof using Hc Hb.
  intros Hn. apply lookup_total_correct.
  rewrite (bound_args_lookup _ _ _ _ _ _ Hb).
  - destruct (supplied m c args kwargs n); [done|].
    unfold geometry in Hn. set_unfold in Hn.
    destruct Hn as [->|[->|[->|[]]]]; by destruct c.
  - unfold geometry in Hn. set_unfold in Hn.
    by destruct Hn as [->|[->|[->|[]]]].
Qed.

(** A geometry parameter given and not [None] resolves to itself, without
    a read. *)
Lemma field_geometry_explicit h n v :
  n ∈ geometry → supplied m c args kwargs n = Some v → v ≠ VNone →
  geometry_of h b n = Ok v ∧ geometry_log b n = [].
Proof using Hc Hb.
  intros Hn Hv Hne.
  unfold geometry_of, geometry_log, geometry_value, geometry_reads.
  rewrite (field_geometry_bound _ Hn), Hv. by destruct v.
Qed.

(** Each geometry attribute of the new instance is what its parameter
    resolved to in the heap of the call. *)
Lemma field_geometry_stored o s' n :
  new m c args kwargs s = (Ok o, s') → n ∈ geometry →
  ∃ v, geometry_of (heap s) b n = Ok v
       ∧ lookup_attr (heap s') o n = Ok v
       ∧ ∀ r, r ∈ geometry_log b n → r ∈ reads s'.
Proof using Hc Hb.
  intros Hnew Hn.
  destruct (new_field_success _ _ _ _ _ _ Hc Hb _ _ Hnew)
    as (v1 & v2 & v3 & attrs & H1 & H2 & H3 & -> & Hh & Hr & A1 & A2 & A3 & _).
  rewrite Hh, Hr, lookup_attr_self.
  unfold geometry in Hn. set_unfold in Hn.
  destruct Hn as [->|[->|[->|[]]]].
  - exists v1. rewrite A1. repeat split; [done|]. set_solver.
  - exists v2. rewrite A2. repeat split; [done|]. set_solver.
  - exists v3. rewrite A3. repeat split; [done|]. set_solver.
Qed.
End field_arguments.

(** A call whose arguments bind returns an instance as soon as the grid
    has what the geometry left to it needs. *)
Lemma new_returns m c args kwargs s b :
  bound_args m c s args kwargs = Ok b →
  grid_suffices m c args kwargs s →
  ∃ o s', new m c args kwargs s = (Ok o, s').
Proof.
  intros Hb Hgrid. destruct (is_field c) eqn:Hc.
  - destruct (Hgrid Hc) as (grid & Hg & Hattrs).
    rewrite (field_grid_supplied _ _ _ _ _ _ Hc Hb) in Hg.
    injection Hg as <-.
    pose proof (new_field_outcome _ _ _ _ _ _ Hc Hb) as Hout.
    assert (Hres : ∀ n, n ∈ geometry →
                        ∃ v, geometry_of (heap s) b n = Ok v).
    { intros n Hn. specialize (Hattrs n Hn). unfold defaulted in Hattrs.
      unfold geometry_of, geometry_value.
      rewrite (field_geometry_bound _ _ _ _ _ _ Hc Hb _ Hn).
      destruct (is_None _); eauto. }
    destruct (Hres "number_of_cells" ltac:(decide_elem)) as [v1 G1].
    destruct (Hres "lower_bound" ltac:(decide_elem)) as [v2 G2].
    destruct (Hres "upper_bound" ltac:(decide_elem)) as [v3 G3].
    rewrite G1, G2, G3 in Hout.
    destruct (new m c args kwargs s) as [r s']. simpl in Hout. subst r.
    eauto.
  - destruct (new_plain_run _ _ _ _ _ _ Hc Hb) as (attrs & Hrun & _).
    eauto.
Qed.

(** In the session, the grid has all three geometry attributes. *)
Ltac session_grid_suffices :=
  let k := fresh "k" in
  let Hk := fresh "Hk" in
  intros _; exists the_grid; split; [reflexivity|];
  intros k Hk _; unfold geometry in Hk; set_unfold in Hk;
  destruct Hk as [->|[->|[->|[]]]]; eexists; vm_compute; exact eq_refl.

(** * The documented behaviour of the constructors *)

(** ** Geometry of the simulation-frame field diagnostics *)

(** C1: when a simulation-frame field diagnostic (electromagnetic or
    electrostatic) is constructed with [number_of_cells], [lower_bound] or
    [upper_bound] omitted or [None], the attribute stored under that name is
    the value of the grid's attribute of that name in the heap of the call,
    and that attribute was read from the grid; nothing is assumed about the
    other two parameters.  This holds of every instance returned, and an
    instance is returned whenever the arguments bind and the grid has the
    attributes left to it. *)
Theorem field_geometry_defaults_from_grid m c args kwargs s n :
  is_field c = true →
  n ∈ geometry →
  supplied m c args kwargs n = None ∨ supplied m c args kwargs n = Some VNone →
  (∀ o s',
     new m c args kwargs s = (Ok o, s') →
     ∃ grid v,
       supplied m c args kwargs "grid" = Some grid
       ∧ lookup_attr (heap s) grid n = Ok v
       ∧ lookup_attr (heap s') o n = Ok v
       ∧ (grid, n) ∈ reads s')
  ∧ (∀ b,
       bound_args m c s args kwargs = Ok b →
       grid_suffices m c args kwargs s →
       ∃ o s' grid v,
         new m c args kwargs s = (Ok o, s')
         ∧ supplied m c args kwargs "grid" = Some grid
         ∧ lookup_attr (heap s) grid n = Ok v
         ∧ lookup_attr (heap s') o n = Ok v
         ∧ (grid, n) ∈ reads s').
Proof.
  intros Hc Hn Hnone.
  assert (Hstored : ∀ o s',
    new m c args kwargs s = (Ok o, s') →
    ∃ grid v,
      supplied m c args kwargs "grid" = Some grid
      ∧ lookup_attr (heap s) grid n = Ok v
      ∧ lookup_attr (heap s') o n = Ok v
      ∧ (grid, n) ∈ reads s').
  { intros o s' Hnew.
    destruct (new_Ok_bound _ _ _ _ _ _ _ Hnew) as [b Hb].
    destruct (field_geometry_stored _ _ _ _ _ _ Hc Hb _ _ _ Hnew Hn)
      as (v & Hv & Hst & Hlog).
    assert (Hbn : b !!! n = VNone).
    { rewrite (field_geometry_bound _ _ _ _ _ _ Hc Hb _ Hn).
      by destruct Hnone as [->| ->]. }
    unfold geometry_of, geometry_value in Hv.
    unfold geometry_log, geometry_reads in Hlog.
    rewrite Hbn in Hv, Hlog. simpl in Hv, Hlog.
    exists (b !!! "grid"), v. split; [by eapply field_grid_supplied|].
    repeat split; [done..|]. apply Hlog, list_elem_of_here. }
  split; [exact Hstored|].
  intros b Hb Hgrid.
  destruct (new_returns _ _ _ _ _ _ Hb Hgrid) as (o & s' & Hnew).
  destruct (Hstored o s' Hnew) as (grid & v & ?).
  by exists o, s', grid, v.
Qed.

Lemma field_geometry_defaults_from_grid_witness :
  (∃ o s' grid v,
     new loaded_module PICMI_FieldDiagnostic [the_grid]
       {["number_of_cells" := VInt 4]} session = (Ok o, s')
     ∧ supplied loaded_module PICMI_FieldDiagnostic [the_grid]
         {["number_of_cells" := VInt 4]} "grid" = Some grid
     ∧ lookup_attr (heap session) grid "lower_bound" = Ok v
     ∧ lookup_attr (heap s') o "lower_bound" = Ok v
     ∧ (grid, "lower_bound") ∈ reads s')
  ∧ (∃ o s' grid v,
       new loaded_module PICMI_ElectrostaticFieldDiagnostic [the_grid] ∅
         session = (Ok o, s')
       ∧ supplied loaded_module PICMI_ElectrostaticFieldDiagnostic [the_grid]
           ∅ "grid" = Some grid
       ∧ lookup_attr (heap session) grid "number_of_cells" = Ok v
       ∧ lookup_attr (heap s') o "number_of_cells" = Ok v
       ∧ (grid, "number_of_cells") ∈ reads s').
Proof.
  split.
  - refine (proj2 (field_geometry_defaults_from_grid loaded_module
                     PICMI_FieldDiagnostic [the_grid]
                     {["number_of_cells" := VInt 4]} session "lower_bound"
                     eq_refl _ _)
              (match bound_args loaded_module PICMI_FieldDiagnostic session
                       [the_grid] {["number_of_cells" := VInt 4]}
               with Ok b => b | Raise _ => ∅ end) _ _).
    + decide_elem.
    + left. vm_compute. reflexivity.
    + vm_compute. exact eq_refl.
    + session_grid_suffices.
  - refine (proj2 (field_geometry_defaults_from_grid loaded_module
                     PICMI_ElectrostaticFieldDiagnostic [the_grid] ∅ session
                     "number_of_cells" eq_refl _ _)
              (match bound_args loaded_module
                       PICMI_ElectrostaticFieldDiagnostic session
                       [the_grid] ∅
               with Ok b => b | Raise _ => ∅ end) _ _).
    + decide_elem.
    + left. vm_compute. reflexivity.
    + vm_compute. exact eq_refl.
    + session_grid_suffices.
Defined.



(** C4: a simulation-frame field diagnostic that was constructed has each of
    [number_of_cells], [lower_bound] and [upper_bound] as an attribute; its
    value is the caller's argument when one other than [None] was given, and
    otherwise the grid's attribute of that name in the heap of the call. *)
Theorem field_geometry_populated m c args kwargs s o s' n :
  is_field c = true →
  n ∈ geometry →
  new m c args kwargs s = (Ok o, s') →
  ∃ v,
    lookup_attr (heap s') o n = Ok v
    ∧ ((supplied m c args kwargs n = Some v ∧ v ≠ VNone)
       ∨ ((supplied m c args kwargs n = None
           ∨ supplied m c args kwargs n = Some VNone)
          ∧ ∃ grid, supplied m c args kwargs "grid" = Some grid
                    ∧ lookup_attr (heap s) grid n = Ok v)).
Proof.
  intros Hc Hn Hnew.
  destruct (new_Ok_bound _ _ _ _ _ _ _ Hnew) as [b Hb].
  destruct (field_geometry_stored _ _ _ _ _ _ Hc Hb _ _ _ Hnew Hn)
    as (v & Hv & Hstored & _).
  exists v. split; [done|].
  unfold geometry_of, geometry_value in Hv.
  rewrite (field_geometry_bound _ _ _ _ _ _ Hc Hb _ Hn) in Hv.
  destruct (supplied m c args kwargs n) as [x|] eqn:Hx; simpl in Hv.
  - destruct (is_None x) eqn:Hnone.
    + right. destruct x; try discriminate. split; [by right|].
      exists (b !!! "grid"). split; [by eapply field_grid_supplied|done].
    + left. injection Hv as <-. split; [done|]. intros ->. discriminate Hnone.
  - right. split; [by left|].
    exists (b !!! "grid"). split; [by eapply field_grid_supplied|done].
Qed.

Lemma field_geometry_populated_witness :
  ∃ v,
    lookup_attr
      (heap (new loaded_module PICMI_FieldDiagnostic [the_grid]
               {["upper_bound" := VRef 6]} session).2)
      (VRef 9) "upper_bound" = Ok v
    ∧ ((supplied loaded_module PICMI_FieldDiagnostic [the_grid]
          {["upper_bound" := VRef 6]} "upper_bound" = Some v ∧ v ≠ VNone)
       ∨ ((supplied loaded_module PICMI_FieldDiagnostic [the_grid]
             {["upper_bound" := VRef 6]} "upper_bound" = None
           ∨ supplied loaded_module PICMI_FieldDiagnostic [the_grid]
               {["upper_bound" := VRef 6]} "upper_bound" = Some VNone)
          ∧ ∃ grid,
              supplied loaded_module PICMI_FieldDiagnostic [the_grid]
                {["upper_bound" := VRef 6]} "grid" = Some grid
              ∧ lookup_attr (heap session) grid "upper_bound" = Ok v)).
Proof.
  apply (field_geometry_populated loaded_module PICMI_FieldDiagnostic
           [the_grid] {["upper_bound" := VRef 6]} session (VRef 9)).
  - reflexivity.
  - decide_elem.
  - vm_compute. reflexivity.
Defined.



(** ** What every constructed diagnostic holds *)

(** Whatever the class, the instance a constructor call returns is the one
    new object of the heap; under each parameter's name, the geometry apart,
    it holds the local variable, and under every other keyword of the call,
    that keyword's value. *)
Lemma new_success m c args kwargs s b o s' :
  bound_args m c s args kwargs = Ok b →
  new m c args kwargs s = (Ok o, s') →
  ∃ attrs : gmap string pyval,
    o = VRef (length (heap s))
    ∧ heap s' = heap s ++ [OInst (class_name c) attrs]
    ∧ (∀ n, n ∈ param_names c → n ∉ geometry → n ≠ "self" →
            attrs !! n = b !! n)
    ∧ (∀ n, n ∉ param_names c → attrs !! n = kwargs !! n).
Proof.
  intros Hb Hnew. destruct (is_field c) eqn:Hc.
  - destruct (new_field_success _ _ _ _ _ _ Hc Hb _ _ Hnew)
      as (_ & _ & _ & attrs & _ & _ & _ & -> & Hh & _ & _ & _ & _ & Hpar & Hoth).
    by exists attrs.
  - destruct (new_plain_run _ _ _ _ _ _ Hc Hb) as (attrs & Hrun & Hpar & Hoth).
    rewrite Hrun in Hnew. injection Hnew as <- <-.
    exists attrs. repeat split; auto.
Qed.

(** The value stored under a parameter that is not part of the geometry:
    what the caller supplied, or else the default of the signature. *)
Lemma new_stored_param m c args kwargs s o s' n :
  new m c args kwargs s = (Ok o, s') →
  n ∈ param_names c → n ∉ geometry → n ≠ "self" →
  ∃ v, match supplied m c args kwargs n with
       | Some x => Some x
       | None => default_of (signature m c) n
       end = Some v
       ∧ lookup_attr (heap s') o n = Ok v.
Proof.
  intros Hnew Hn Hg Hs.
  destruct (new_Ok_bound _ _ _ _ _ _ _ Hnew) as [b Hb].
  destruct (new_success _ _ _ _ _ _ _ _ Hb Hnew) as (attrs & -> & Hh & Hpar & _).
  exists (b !!! n).
  rewrite <- (bound_args_lookup _ _ _ _ _ _ Hb) by done.
  split; [by eapply bound_args_total|].
  rewrite Hh, lookup_attr_self, Hpar by done.
  by rewrite (bound_args_total _ _ _ _ _ _ Hb).
Qed.

(** Reading an attribute can only fail with [AttributeError]. *)
Lemma lookup_attr_Raise h v n e :
  lookup_attr h v n = Raise e → e = AttributeError.
Proof.
  unfold lookup_attr. destruct v as [| | | |l]; try congruence.
  destruct (h !! l) as [[|? attrs]|]; try congruence.
  destruct (attrs !! n); congruence.
Qed.

Section field_faults.
Context (m : pymodule) (c : diag_class) (s : state) (args : list pyval)
        (kwargs b : gmap string pyval).
Hypothesis Hc : is_field c = true.
Hypothesis Hb : bound_args m c s args kwargs = Ok b.

(** A geometry parameter fails to resolve only when it is omitted or [None]
    and the grid has no attribute of its name. *)
Lemma geometry_of_Raise n e :
  n ∈ geometry →
  geometry_of (heap s) b n = Raise e →
  e = AttributeError
  ∧ (supplied m c args kwargs n = None
     ∨ supplied m c args kwargs n = Some VNone)
  ∧ lookup_attr (heap s) (b !!! "grid") n = Raise AttributeError.
Proof using Hc Hb.
  intros Hn. unfold geometry_of, geometry_value.
  rewrite (field_geometry_bound _ _ _ _ _ _ Hc Hb _ Hn).
  destruct (supplied m c args kwargs n) as [[| | | |]|]; simpl; try discriminate;
    intros He; pose proof (lookup_attr_Raise _ _ _ _ He) as ->; auto.
Qed.

Lemma geometry_of_omitted n :
  n ∈ geometry →
  supplied m c args kwargs n = None ∨ supplied m c args kwargs n = Some VNone →
  geometry_of (heap s) b n = lookup_attr (heap s) (b !!! "grid") n.
Proof using Hc Hb.
  intros Hn Hom. unfold geometry_of, geometry_value.
  rewrite (field_geometry_bound _ _ _ _ _ _ Hc Hb _ Hn).
  by destruct Hom as [->| ->].
Qed.
End field_faults.

(** ** Faults *)

(** C5, as the code has it: a simulation-frame field diagnostic whose
    arguments bind, with a grid ([None], say) that has no attribute for a
    geometry parameter left out or [None], raises [AttributeError], and the
    exception is the outcome of the constructor call.  It is the only
    exception the body raises; the one other fault of the call is the
    [TypeError] of an argument list that does not fit the signature, which
    is what omitting the required [grid] gives. *)
Theorem field_construction_faults m c args kwargs s :
  is_field c = true →
  (∀ b grid n,
     bound_args m c s args kwargs = Ok b →
     supplied m c args kwargs "grid" = Some grid →
     n ∈ geometry →
     supplied m c args kwargs n = None
     ∨ supplied m c args kwargs n = Some VNone →
     lookup_attr (heap s) grid n = Raise AttributeError →
     (new m c args kwargs s).1 = Raise AttributeError)
  ∧ (∀ e,
       (new m c args kwargs s).1 = Raise e →
       (e = TypeError ∧ bound_args m c s args kwargs = Raise TypeError)
       ∨ (e = AttributeError
          ∧ ∃ grid n,
              supplied m c args kwargs "grid" = Some grid
              ∧ n ∈ geometry
              ∧ (supplied m c args kwargs n = None
                 ∨ supplied m c args kwargs n = Some VNone)
              ∧ lookup_attr (heap s) grid n = Raise AttributeError)).
Proof.
  intros Hc. split.
  - intros b grid n Hb Hgrid Hn Hom Hlack.
    pose proof (field_grid_supplied _ _ _ _ _ _ Hc Hb) as Hg.
    rewrite Hgrid in Hg. injection Hg as ->.
    pose proof (geometry_of_omitted _ _ _ _ _ _ Hc Hb _ Hn Hom) as Hgn.
    rewrite Hlack in Hgn.
    rewrite (new_field_outcome _ _ _ _ _ _ Hc Hb).
    pose proof (geometry_of_Raise _ _ _ _ _ _ Hc Hb) as Hraise.
    destruct (geometry_of (heap s) b "number_of_cells") as [?|e1] eqn:G1;
      [|by destruct (Hraise "number_of_cells" e1 ltac:(decide_elem) G1) as [-> _]].
    destruct (geometry_of (heap s) b "lower_bound") as [?|e2] eqn:G2;
      [|by destruct (Hraise "lower_bound" e2 ltac:(decide_elem) G2) as [-> _]].
    destruct (geometry_of (heap s) b "upper_bound") as [?|e3] eqn:G3;
      [|by destruct (Hraise "upper_bound" e3 ltac:(decide_elem) G3) as [-> _]].
    unfold geometry in Hn. set_unfold in Hn.
    destruct Hn as [->|[->|[->|[]]]]; congruence.
  - intros e He.
    destruct (bound_args m c s args kwargs) as [b|e0] eqn:Hb.
    + right. rewrite (new_field_outcome _ _ _ _ _ _ Hc Hb) in He.
      pose proof (geometry_of_Raise _ _ _ _ _ _ Hc Hb) as Hraise.
      pose proof (field_grid_supplied _ _ _ _ _ _ Hc Hb) as Hg.
      destruct (geometry_of (heap s) b "number_of_cells") as [?|e1] eqn:G1.
      2:{ injection He as ->.
          destruct (Hraise "number_of_cells" _ ltac:(decide_elem) G1) as (-> & Hom & Hl).
          split; [done|]. exists (b !!! "grid"), "number_of_cells".
          repeat split; [done| decide_elem | done..]. }
      destruct (geometry_of (heap s) b "lower_bound") as [?|e2] eqn:G2.
      2:{ injection He as ->.
          destruct (Hraise "lower_bound" _ ltac:(decide_elem) G2) as (-> & Hom & Hl).
          split; [done|]. exists (b !!! "grid"), "lower_bound".
          repeat split; [done| decide_elem | done..]. }
      destruct (geometry_of (heap s) b "upper_bound") as [?|e3] eqn:G3;
        [discriminate|].
      injection He as ->.
      destruct (Hraise "upper_bound" _ ltac:(decide_elem) G3) as (-> & Hom & Hl).
      split; [done|]. exists (b !!! "grid"), "upper_bound".
      repeat split; [done| decide_elem | done..].
    + left. destruct (new_unbound _ _ _ _ _ _ Hb) as [Hr _].
      rewrite Hr in He. injection He as <-.
      by rewrite (bind_params_TypeError _ _ _ _ Hb).
Qed.

Lemma field_construction_faults_witness :
  (new loaded_module PICMI_FieldDiagnostic [VNone] ∅ session).1
  = Raise AttributeError.
Proof.
  refine (proj1 (field_construction_faults loaded_module PICMI_FieldDiagnostic
                   [VNone] ∅ session eq_refl)
            (match bound_args loaded_module PICMI_FieldDiagnostic session
                     [VNone] ∅
             with Ok b => b | Raise _ => ∅ end)
            VNone "number_of_cells" _ _ _ _ _).
  - vm_compute. exact eq_refl.
  - reflexivity.
  - decide_elem.
  - left. reflexivity.
  - reflexivity.
Defined.

(** C5, as the claim has it, fails: constructed without a grid and without
    geometry, the electromagnetic field diagnostic raises [TypeError], so
    [AttributeError] is not the only fault of construction. *)
Lemma field_diagnostic_without_grid_raises_TypeError :
  (new loaded_module PICMI_FieldDiagnostic [] ∅ session).1 = Raise TypeError
  ∧ ¬ (∀ m c args kwargs s e,
         is_field c = true →
         (new m c args kwargs s).1 = Raise e → e = AttributeError).
Proof.
  assert (Hrun : (new loaded_module PICMI_FieldDiagnostic [] ∅ session).1
                 = Raise TypeError) by (vm_compute; reflexivity).
  split; [exact Hrun|].
  intros Hall.
  by specialize (Hall _ PICMI_FieldDiagnostic _ _ _ _ eq_refl Hrun).
Qed.

(** ** Lab frame diagnostics *)



(** ** The particle diagnostic *)

(** C7: a call of [PICMI_ParticleDiagnostic] whose arguments bind returns an
    instance whose [period], [species], [data_list], [write_dir], [step_min]
    and [step_max] are the arguments supplied, with [period] 1 and
    [species], [write_dir], [step_min], [step_max] [None] when omitted (and
    [data_list] the default list of the signature); no attribute of any
    object is read, and no object other than the new instance changes. *)
Theorem particle_stores_verbatim m args kwargs s b :
  bound_args m PICMI_ParticleDiagnostic s args kwargs = Ok b →
  ∃ o s' attrs,
    new m PICMI_ParticleDiagnostic args kwargs s = (Ok o, s')
    ∧ reads s' = reads s
    ∧ heap s' = heap s ++ [OInst "PICMI_ParticleDiagnostic" attrs]
    ∧ lookup_attr (heap s') o "period"
      = Ok (default (VInt 1)
              (supplied m PICMI_ParticleDiagnostic args kwargs "period"))
    ∧ lookup_attr (heap s') o "species"
      = Ok (default VNone
              (supplied m PICMI_ParticleDiagnostic args kwargs "species"))
    ∧ lookup_attr (heap s') o "data_list"
      = Ok (default (m PICMI_ParticleDiagnostic)
              (supplied m PICMI_ParticleDiagnostic args kwargs "data_list"))
    ∧ lookup_attr (heap s') o "write_dir"
      = Ok (default VNone
              (supplied m PICMI_ParticleDiagnostic args kwargs "write_dir"))
    ∧ lookup_attr (heap s') o "step_min"
      = Ok (default VNone
              (supplied m PICMI_ParticleDiagnostic args kwargs "step_min"))
    ∧ lookup_attr (heap s') o "step_max"
      = Ok (default VNone
              (supplied m PICMI_ParticleDiagnostic args kwargs "step_max")).
Proof.
  intros Hb.
  destruct (new_plain_run m PICMI_ParticleDiagnostic args kwargs s b)
    as (attrs & Hrun & _); [done..|].
  eexists _, _, attrs. split; [exact Hrun|].
  split; [done|]. split; [done|].
  assert (Hstored : ∀ n d,
    n ∈ param_names PICMI_ParticleDiagnostic → n ∉ geometry → n ≠ "self" →
    default_of (signature m PICMI_ParticleDiagnostic) n = Some d →
    lookup_attr (heap s ++ [OInst "PICMI_ParticleDiagnostic" attrs])
      (VRef (length (heap s))) n
    = Ok (default d (supplied m PICMI_ParticleDiagnostic args kwargs n))).
  { intros n d Hn Hg Hs Hd.
    destruct (new_stored_param _ _ _ _ _ _ _ n Hrun) as (v & Hv & Hl);
      [done..|].
    etrans; [exact Hl|].
    destruct (supplied m PICMI_ParticleDiagnostic args kwargs n);
      simpl; congruence. }
  cbn [heap].
  repeat split;
    (apply Hstored; [decide_elem|decide_not_elem|done|reflexivity]).
Qed.

Lemma particle_stores_verbatim_witness :
  ∃ o s' attrs,
    new loaded_module PICMI_ParticleDiagnostic [VInt 10]
      {["write_dir" := VStr "diags"]} session = (Ok o, s')
    ∧ reads s' = reads session
    ∧ heap s' = heap session ++ [OInst "PICMI_ParticleDiagnostic" attrs]
    ∧ lookup_attr (heap s') o "period" = Ok (VInt 10)
    ∧ lookup_attr (heap s') o "species" = Ok VNone
    ∧ lookup_attr (heap s') o "data_list" = Ok (VRef 2)
    ∧ lookup_attr (heap s') o "write_dir" = Ok (VStr "diags")
    ∧ lookup_attr (heap s') o "step_min" = Ok VNone
    ∧ lookup_attr (heap s') o "step_max" = Ok VNone.
Proof.
  refine (particle_stores_verbatim loaded_module [VInt 10]
            {["write_dir" := VStr "diags"]} session
            (match bound_args loaded_module PICMI_ParticleDiagnostic session
                     [VInt 10] {["write_dir" := VStr "diags"]}
             with Ok b => b | Raise _ => ∅ end) _).
  vm_compute. exact eq_refl.
Defined.

(** ** Extra keyword arguments *)

(** Dropping the keywords that name no parameter leaves the binding as it
    is. *)
Lemma bound_args_without_extras m c s args (kwargs : gmap string pyval) :
  bound_args m c s args (filter (λ kv, kv.1 ∈ param_names c) kwargs)
  = bound_args m c s args kwargs.
Proof.
  apply bind_params_ext. intros p Hp.
  assert (Hin : pname p ∈ param_names c).
  { rewrite <- param_names_fparams with (m := m). by apply list_elem_of_fmap_2. }
  destruct (kwargs !! pname p) as [v|] eqn:Ek.
  - by apply map_lookup_filter_Some.
  - apply map_lookup_filter_None. by left.
Qed.

(** C8: for each of the five classes, keyword arguments that name no
    parameter of the constructor do not make the call raise: the outcome is
    that of the call without them, and a call whose arguments bind (and, for
    the field classes, whose grid has the attributes left to it) returns an
    instance.  On the instance returned, each extra keyword is an attribute
    holding the value passed.  [handle_init] is modelled from the spec
    here. *)
Theorem extra_keywords_are_stored m c args kwargs s :
  (new m c args kwargs s).1
  = (new m c args (filter (λ kv, kv.1 ∈ param_names c) kwargs) s).1
  ∧ (∀ o s' k v,
       new m c args kwargs s = (Ok o, s') →
       kwargs !! k = Some v →
       k ∉ param_names c →
       lookup_attr (heap s') o k = Ok v)
  ∧ (∀ b,
       bound_args m c s args kwargs = Ok b →
       grid_suffices m c args kwargs s →
       ∃ o s',
         new m c args kwargs s = (Ok o, s')
         ∧ ∀ k v, kwargs !! k = Some v → k ∉ param_names c →
                  lookup_attr (heap s') o k = Ok v).
Proof.
  assert (Hstored : ∀ o s' k v,
    new m c args kwargs s = (Ok o, s') →
    kwargs !! k = Some v →
    k ∉ param_names c →
    lookup_attr (heap s') o k = Ok v).
  { intros o s' k v Hnew Hk Hextra.
    destruct (new_Ok_bound _ _ _ _ _ _ _ Hnew) as [b Hb].
    destruct (new_success _ _ _ _ _ _ _ _ Hb Hnew)
      as (attrs & -> & Hh & _ & Hoth).
    by rewrite Hh, lookup_attr_self, Hoth, Hk. }
  split; [|split; [exact Hstored|]].
  - pose proof (bound_args_without_extras m c s args kwargs) as Hsame.
    destruct (bound_args m c s args kwargs) as [b|e] eqn:Hb.
    + destruct (is_field c) eqn:Hc.
      * by rewrite (new_field_outcome _ _ _ _ _ _ Hc Hb),
          (new_field_outcome _ _ _ _ _ _ Hc Hsame).
      * destruct (new_plain_run _ _ _ _ _ _ Hc Hb) as (? & -> & _).
        by destruct (new_plain_run _ _ _ _ _ _ Hc Hsame) as (? & -> & _).
    + destruct (new_unbound _ _ _ _ _ _ Hb) as [-> _].
      by destruct (new_unbound _ _ _ _ _ _ Hsame) as [-> _].
  - intros b Hb Hgrid.
    destruct (new_returns _ _ _ _ _ _ Hb Hgrid) as (o & s' & Hnew).
    exists o, s'. split; [done|]. intros k v. by apply Hstored.
Qed.

Lemma extra_keywords_are_stored_witness :
  (∃ o s',
     new loaded_module PICMI_ParticleDiagnostic [VInt 10]
       {["warpx_file_prefix" := VStr "lab"]} session = (Ok o, s')
     ∧ ∀ k v,
         ({["warpx_file_prefix" := VStr "lab"]} : gmap string pyval) !! k
         = Some v →
         k ∉ param_names PICMI_ParticleDiagnostic →
         lookup_attr (heap s') o k = Ok v)
  ∧ (∃ o s',
       new loaded_module PICMI_FieldDiagnostic [the_grid]
         {["warpx_file_prefix" := VStr "lab"]} session = (Ok o, s')
       ∧ ∀ k v,
           ({["warpx_file_prefix" := VStr "lab"]} : gmap string pyval) !! k
           = Some v →
           k ∉ param_names PICMI_FieldDiagnostic →
           lookup_attr (heap s') o k = Ok v).
Proof.
  split.
  - refine (proj2 (proj2 (extra_keywords_are_stored loaded_module
                     PICMI_ParticleDiagnostic [VInt 10]
                     {["warpx_file_prefix" := VStr "lab"]} session))
              (match bound_args loaded_module PICMI_ParticleDiagnostic session
                       [VInt 10] {["warpx_file_prefix" := VStr "lab"]}
               with Ok b => b | Raise _ => ∅ end) _ _).
    + vm_compute. exact eq_refl.
    + intros Hc. discriminate Hc.
  - refine (proj2 (proj2 (extra_keywords_are_stored loaded_module
                     PICMI_FieldDiagnostic [the_grid]
                     {["warpx_file_prefix" := VStr "lab"]} session))
              (match bound_args loaded_module PICMI_FieldDiagnostic session
                       [the_grid] {["warpx_file_prefix" := VStr "lab"]}
               with Ok b => b | Raise _ => ∅ end) _ _).
    + vm_compute. exact eq_refl.
    + session_grid_suffices.
Defined.

(** ** Optional arguments left out *)



(** ** Default data lists *)

(** Executing the module leaves every default list in place. *)
Lemma exec_module_defaults_intact s m s' :
  exec_module s = (Ok m, s') → defaults_intact m s'.
Proof.
  unfold exec_module, new_list, mbind, M_bind, alloc, with_heap, mret, M_ret.
  simpl. intros [= <- <-] c. unfold list_at. cbn [heap].
  rewrite <- !app_assoc. simpl.
  destruct c; rewrite ?length_app; simpl; rewrite lookup_app_r by lia;
    match goal with
    | |- context [?a - ?b] =>
        first [ replace (a - b) with 0 by lia
              | replace (a - b) with 1 by lia
              | replace (a - b) with 2 by lia
              | replace (a - b) with 3 by lia
              | replace (a - b) with 4 by lia ]
    end; reflexivity.
Qed.

(** A constructor call, returning or raising, adds one instance to the heap
    and changes no other object. *)
Lemma new_heap m c args kwargs s :
  ∃ attrs, heap (new m c args kwargs s).2
           = heap s ++ [OInst (class_name c) attrs].
Proof.
  destruct (bound_args m c s args kwargs) as [b|e] eqn:Hb.
  - destruct (is_field c) eqn:Hc.
    + rewrite (new_field_run _ _ _ _ _ _ Hc Hb). cbv zeta.
      repeat (destruct (geometry_of _ _ _); [|by eexists]). by eexists.
    + destruct (new_plain_run _ _ _ _ _ _ Hc Hb) as (attrs & -> & _).
      by eexists.
  - rewrite new_run, Hb. by eexists.
Qed.

(** No constructor modifies a default list. *)
Lemma new_preserves_defaults m c args kwargs s :
  defaults_intact m s → defaults_intact m (new m c args kwargs s).2.
Proof.
  intros Hint c'. destruct (new_heap m c args kwargs s) as [attrs ->].
  apply list_at_old, Hint.
Qed.




(** * Further properties of the constructors *)

(** ** When a call binds *)

(** The three ways a call can miss a signature: more positional arguments
    than parameters, a parameter given positionally and by keyword, a
    parameter without default given neither way. *)
Lemma bind_params_Raise_iff ps args (kwargs : gmap string pyval) :
  bind_params ps args kwargs = Raise TypeError
  ↔ length ps < length args
    ∨ (∃ i p, ps !! i = Some p ∧ i < length args
              ∧ is_Some (kwargs !! pname p))
    ∨ (∃ i p, ps !! i = Some p ∧ length args ≤ i
              ∧ kwargs !! pname p = None ∧ pdefault p = None).
Proof.
  revert args. induction ps as [|p ps IH]; intros args.
  - destruct args as [|a args]; simpl.
    + split; [discriminate|].
      intros [?|[(i & q & Hq & _)|(i & q & Hq & _)]]; [lia|done..].
    + split; [intros _; left; lia|done].
  - assert (Hrec : ∀ args' (f : gmap string pyval → gmap string pyval),
      match bind_params ps args' kwargs with
      | Ok b => Ok (f b)
      | Raise e => Raise e
      end = Raise TypeError
      ↔ bind_params ps args' kwargs = Raise TypeError).
    { intros args' f. destruct (bind_params ps args' kwargs) eqn:E; [done|].
      by rewrite (bind_params_TypeError _ _ _ _ E). }
    destruct args as [|a args]; simpl.
    + destruct (kwargs !! pname p) as [v|] eqn:Ek;
        [|destruct (pdefault p) as [v|] eqn:Ed].
      3:{ split; [intros _|done]. right; right. exists 0, p. simpl.
          repeat split; [lia|done..]. }
      all: rewrite Hrec, IH; simpl; split.
      all: try (intros [?|[(i & q & Hq & Hi & Hs)|(i & q & Hq & Hi & Hk & Hd)]];
                [lia|lia|right; right; exists (S i), q; simpl;
                         repeat split; [done|lia|done..]]).
      all: intros [?|[(i & q & Hq & Hi & Hs)|(i & q & Hq & Hi & Hk & Hd)]];
             [lia|lia|].
      all: destruct i as [|i]; simpl in Hq; [injection Hq as <-; congruence|].
      all: right; right; exists i, q; repeat split; [done|lia|done..].
    + destruct (kwargs !! pname p) as [v|] eqn:Ek.
      * split; [intros _|done]. right; left. exists 0, p. simpl.
        repeat split; [lia|eauto].
      * rewrite Hrec, IH. split.
        -- intros [?|[(i & q & Hq & Hi & Hs)|(i & q & Hq & Hi & Hk & Hd)]].
           ++ left. lia.
           ++ right; left. exists (S i), q. simpl. repeat split; [done|lia|done].
           ++ right; right. exists (S i), q. simpl.
              repeat split; [done|lia|done..].
        -- intros [?|[(i & q & Hq & Hi & Hs)|(i & q & Hq & Hi & Hk & Hd)]].
           ++ left. lia.
           ++ destruct i as [|i]; simpl in Hq.
              { injection Hq as <-. rewrite Ek in Hs. by destruct Hs. }
              right; left. exists i, q. repeat split; [done|lia|done].
           ++ destruct i as [|i]; simpl in Hq, Hi; [lia|].
              right; right. exists i, q. repeat split; [done|lia|done..].
Qed.

Lemma fparams_self m c :
  fparams (init_of m c) = Param "self" None :: signature m c.
Proof. by destruct c. Qed.

(** A constructor call raises [TypeError] exactly when its arguments do not
    bind: no body raises it. *)
Lemma new_TypeError_unbound m c args kwargs s :
  (new m c args kwargs s).1 = Raise TypeError
  ↔ bound_args m c s args kwargs = Raise TypeError.
Proof.
  split.
  - intros Hnew. destruct (bound_args m c s args kwargs) as [b|e] eqn:Hb;
      [|by rewrite (bind_params_TypeError _ _ _ _ Hb)].
    destruct (is_field c) eqn:Hc.
    + rewrite (new_field_outcome _ _ _ _ _ _ Hc Hb) in Hnew.
      pose proof (geometry_of_Raise _ _ _ _ _ _ Hc Hb) as Hraise.
      destruct (geometry_of (heap s) b "number_of_cells") as [?|e1] eqn:G1;
        [|by destruct (Hraise "number_of_cells" e1 ltac:(decide_elem) G1)
            as [-> _]].
      destruct (geometry_of (heap s) b "lower_bound") as [?|e2] eqn:G2;
        [|by destruct (Hraise "lower_bound" e2 ltac:(decide_elem) G2)
            as [-> _]].
      destruct (geometry_of (heap s) b "upper_bound") as [?|e3] eqn:G3;
        [done|by destruct (Hraise "upper_bound" e3 ltac:(decide_elem) G3)
                as [-> _]].
    + destruct (new_plain_run _ _ _ _ _ _ Hc Hb) as (? & Hrun & _).
      by rewrite Hrun in Hnew.
  - intros Hb. by destruct (new_unbound _ _ _ _ _ _ Hb).
Qed.

(** X1: a constructor call raises [TypeError] in exactly four cases: more
    positional arguments than the signature has parameters after [self]; a
    keyword named [self]; a parameter passed both positionally and by
    keyword; a parameter without default passed neither way. *)
Theorem construction_TypeError_iff m c args kwargs s :
  (new m c args kwargs s).1 = Raise TypeError
  ↔ length (signature m c) < length args
    ∨ is_Some (kwargs !! "self")
    ∨ (∃ i p, signature m c !! i = Some p ∧ i < length args
              ∧ is_Some (kwargs !! pname p))
    ∨ (∃ i p, signature m c !! i = Some p ∧ length args ≤ i
              ∧ kwargs !! pname p = None ∧ pdefault p = None).
Proof.
  rewrite new_TypeError_unbound. unfold bound_args.
  rewrite bind_params_Raise_iff, fparams_self. simpl. split.
  - intros [?|[(i & q & Hq & Hi & Hs)|(i & q & Hq & Hi & Hk & Hd)]].
    + left. lia.
    + destruct i as [|i]; simpl in Hq.
      * injection Hq as <-. by right; left.
      * right; right; left. exists i, q. repeat split; [done|lia|done].
    + destruct i as [|i]; simpl in Hq; [lia|].
      right; right; right. exists i, q. repeat split; [done|lia|done..].
  - intros [?|[Hs|[(i & q & Hq & Hi & Hs)|(i & q & Hq & Hi & Hk & Hd)]]].
    + left. lia.
    + right; left. exists 0, (Param "self" None). simpl.
      repeat split; [lia|done].
    + right; left. exists (S i), q. simpl. repeat split; [done|lia|done].
    + right; right. exists (S i), q. simpl. repeat split; [done|lia|done..].
Qed.

Lemma construction_TypeError_iff_witness :
  (new loaded_module PICMI_LabFrameFieldDiagnostic [VInt 20]
     {["num_snapshots" := VInt 30]} session).1 = Raise TypeError.
Proof.
  apply (proj2 (construction_TypeError_iff loaded_module
                  PICMI_LabFrameFieldDiagnostic [VInt 20]
                  {["num_snapshots" := VInt 30]} session)).
  right; right; left. exists 0, (Param "num_snapshots" None).
  repeat split; [simpl; lia|]. by exists (VInt 30).
Defined.

(** ** The grid reads of the field diagnostics *)

Section field_reads.
Context (m : pymodule) (c : diag_class) (s : state) (args : list pyval)
        (kwargs b : gmap string pyval).
Hypothesis Hc : is_field c = true.
Hypothesis Hb : bound_args m c s args kwargs = Ok b.

Lemma geometry_of_defaulted h n :
  n ∈ geometry →
  geometry_of h b n
  = if defaulted m c args kwargs n
    then lookup_attr h (b !!! "grid") n
    else Ok (default VNone (supplied m c args kwargs n)).
Proof using Hc Hb.
  intros Hn. unfold geometry_of, geometry_value, defaulted.
  by rewrite (field_geometry_bound _ _ _ _ _ _ Hc Hb _ Hn).
Qed.

Lemma geometry_log_defaulted n :
  n ∈ geometry →
  geometry_log b n
  = if defaulted m c args kwargs n then [(b !!! "grid", n)] else [].
Proof using Hc Hb.
  intros Hn. unfold geometry_log, geometry_reads, defaulted.
  by rewrite (field_geometry_bound _ _ _ _ _ _ Hc Hb _ Hn).
Qed.

(** The reads of a parameter that resolved all succeeded. *)
Lemma geometry_log_Ok h n v :
  n ∈ geometry →
  geometry_of h b n = Ok v →
  Forall (λ r, ∃ x, lookup_attr h r.1 r.2 = Ok x) (geometry_log b n).
Proof using Hc Hb.
  intros Hn. rewrite geometry_of_defaulted, geometry_log_defaulted by done.
  destruct (defaulted m c args kwargs n); [|by constructor].
  intros Hv. constructor; [by exists v|constructor].
Qed.

(** A parameter that failed to resolve was left to the grid, and its read
    is the one that failed. *)
Lemma geometry_log_Raise h n e :
  n ∈ geometry →
  geometry_of h b n = Raise e →
  defaulted m c args kwargs n = true
  ∧ geometry_log b n = [(b !!! "grid", n)]
  ∧ lookup_attr h (b !!! "grid") n = Raise AttributeError.
Proof using Hc Hb.
  intros Hn. rewrite geometry_of_defaulted, geometry_log_defaulted by done.
  destruct (defaulted m c args kwargs n); [|discriminate].
  intros He. by rewrite <- (lookup_attr_Raise _ _ _ _ He).
Qed.
End field_reads.

(** X2: a constructor call returns an instance exactly when its arguments
    bind and, for the two simulation-frame field classes, the grid has an
    attribute for every geometry parameter that is omitted or [None]. *)
Theorem construction_succeeds_iff m c args kwargs s :
  (∃ o s', new m c args kwargs s = (Ok o, s'))
  ↔ (∃ b, bound_args m c s args kwargs = Ok b)
    ∧ (is_field c = true →
       ∃ grid,
         supplied m c args kwargs "grid" = Some grid
         ∧ ∀ n, n ∈ geometry → defaulted m c args kwargs n = true →
                ∃ v, lookup_attr (heap s) grid n = Ok v).
Proof.
  split.
  - intros (o & s' & Hnew).
    destruct (new_Ok_bound _ _ _ _ _ _ _ Hnew) as [b Hb].
    split; [eauto|]. intros Hc. exists (b !!! "grid").
    split; [by eapply field_grid_supplied|]. intros n Hn Hd.
    destruct (field_geometry_stored _ _ _ _ _ _ Hc Hb _ _ _ Hnew Hn)
      as (v & Hv & _).
    rewrite (geometry_of_defaulted _ _ _ _ _ _ Hc Hb) in Hv by done.
    rewrite Hd in Hv. eauto.
  - intros [[b Hb] Hgrid]. destruct (is_field c) eqn:Hc.
    + destruct (Hgrid eq_refl) as (grid & Hg & Hattrs).
      rewrite (field_grid_supplied _ _ _ _ _ _ Hc Hb) in Hg.
      injection Hg as <-.
      pose proof (new_field_outcome _ _ _ _ _ _ Hc Hb) as Hout.
      assert (Hres : ∀ n, n ∈ geometry →
                          ∃ v, geometry_of (heap s) b n = Ok v).
      { intros n Hn.
        rewrite (geometry_of_defaulted _ _ _ _ _ _ Hc Hb) by done.
        destruct (defaulted m c args kwargs n) eqn:Hd; eauto. }
      destruct (Hres "number_of_cells" ltac:(decide_elem)) as [v1 G1].
      destruct (Hres "lower_bound" ltac:(decide_elem)) as [v2 G2].
      destruct (Hres "upper_bound" ltac:(decide_elem)) as [v3 G3].
      rewrite G1, G2, G3 in Hout.
      destruct (new m c args kwargs s) as [r s']. simpl in Hout. subst r.
      eauto.
    + destruct (new_plain_run _ _ _ _ _ _ Hc Hb) as (attrs & Hrun & _).
      eauto.
Qed.

Lemma construction_succeeds_iff_witness :
  ∃ o s',
    new loaded_module PICMI_FieldDiagnostic [the_grid]
      {["lower_bound" := VRef 6]} session = (Ok o, s').
Proof.
  apply (proj2 (construction_succeeds_iff loaded_module PICMI_FieldDiagnostic
                  [the_grid] {["lower_bound" := VRef 6]} session)).
  split.
  - eexists. vm_compute. exact eq_refl.
  - intros _. exists the_grid. split; [reflexivity|].
    intros n Hn _. unfold geometry in Hn. set_unfold in Hn.
    destruct Hn as [->|[->|[->|[]]]]; eexists; vm_compute; exact eq_refl.
Defined.

(** X3: a simulation-frame field diagnostic that is constructed has read,
    from the grid and in the order [number_of_cells], [lower_bound],
    [upper_bound], exactly the attributes whose parameter was omitted or
    [None]; it has read nothing else. *)
Theorem field_read_log m c args kwargs s o s' :
  is_field c = true →
  new m c args kwargs s = (Ok o, s') →
  ∃ grid,
    supplied m c args kwargs "grid" = Some grid
    ∧ reads s'
      = reads s ++
        ((λ n, (grid, n)) <$>
           filter (λ n, defaulted m c args kwargs n = true) geometry).
Proof.
  intros Hc Hnew.
  destruct (new_Ok_bound _ _ _ _ _ _ _ Hnew) as [b Hb].
  exists (b !!! "grid"). split; [by eapply field_grid_supplied|].
  destruct (new_field_success _ _ _ _ _ _ Hc Hb _ _ Hnew)
    as (_ & _ & _ & _ & _ & _ & _ & _ & _ & -> & _).
  rewrite !(geometry_log_defaulted _ _ _ _ _ _ Hc Hb) by decide_elem.
  unfold geometry. rewrite !filter_cons, filter_nil.
  by destruct (defaulted m c args kwargs "number_of_cells"),
    (defaulted m c args kwargs "lower_bound"),
    (defaulted m c args kwargs "upper_bound").
Qed.

Lemma field_read_log_witness :
  ∃ grid,
    supplied loaded_module PICMI_FieldDiagnostic [the_grid]
      {["lower_bound" := VRef 6]} "grid" = Some grid
    ∧ reads (new loaded_module PICMI_FieldDiagnostic [the_grid]
               {["lower_bound" := VRef 6]} session).2
      = reads session ++
        ((λ n, (grid, n)) <$>
           filter (λ n, defaulted loaded_module PICMI_FieldDiagnostic
                          [the_grid] {["lower_bound" := VRef 6]} n = true)
             geometry).
Proof.
  apply (field_read_log loaded_module PICMI_FieldDiagnostic [the_grid]
           {["lower_bound" := VRef 6]} session (VRef 9)).
  - reflexivity.
  - vm_compute. exact eq_refl.
Defined.

(** X4: when the construction of a simulation-frame field diagnostic raises
    [AttributeError], the last attribute read is the one the grid lacks, its
    parameter was omitted or [None], every read before it succeeded, and
    nothing was read after it. *)
Theorem field_failed_read_log m c args kwargs s :
  is_field c = true →
  (new m c args kwargs s).1 = Raise AttributeError →
  ∃ grid n pre,
    supplied m c args kwargs "grid" = Some grid
    ∧ n ∈ geometry
    ∧ defaulted m c args kwargs n = true
    ∧ lookup_attr (heap s) grid n = Raise AttributeError
    ∧ reads (new m c args kwargs s).2 = reads s ++ pre ++ [(grid, n)]
    ∧ Forall (λ r, ∃ x, lookup_attr (heap s) r.1 r.2 = Ok x) pre.
Proof.
  intros Hc Hnew.
  destruct (bound_args m c s args kwargs) as [b|e] eqn:Hb;
    [|destruct (new_unbound _ _ _ _ _ _ Hb) as [Hr _]; congruence].
  exists (b !!! "grid").
  pose proof (field_grid_supplied _ _ _ _ _ _ Hc Hb) as Hg.
  pose proof (geometry_log_Ok _ _ _ _ _ _ Hc Hb (heap s)) as Hok.
  pose proof (geometry_log_Raise _ _ _ _ _ _ Hc Hb (heap s)) as Hraise.
  rewrite (new_field_run _ _ _ _ _ _ Hc Hb) in Hnew |- *. cbv zeta in *.
  destruct (geometry_of (heap s) b "number_of_cells") as [v1|e1] eqn:G1.
  2:{ destruct (Hraise "number_of_cells" e1 ltac:(decide_elem) G1)
        as (Hd & -> & Hl).
      exists "number_of_cells", []. repeat split; [done|decide_elem|done..]. }
  destruct (geometry_of (heap s) b "lower_bound") as [v2|e2] eqn:G2.
  2:{ destruct (Hraise "lower_bound" e2 ltac:(decide_elem) G2)
        as (Hd & -> & Hl).
      exists "lower_bound", (geometry_log b "number_of_cells").
      repeat split; [done|decide_elem|done|done| |].
      - simpl. by rewrite <- app_assoc.
      - by apply (Hok "number_of_cells" v1); [decide_elem|]. }
  destruct (geometry_of (heap s) b "upper_bound") as [v3|e3] eqn:G3;
    [discriminate|].
  destruct (Hraise "upper_bound" e3 ltac:(decide_elem) G3) as (Hd & -> & Hl).
  exists "upper_bound",
    (geometry_log b "number_of_cells" ++ geometry_log b "lower_bound").
  repeat split; [done|decide_elem|done|done| |].
  - simpl. by rewrite <- !app_assoc.
  - apply Forall_app. split.
    + by apply (Hok "number_of_cells" v1); [decide_elem|].
    + by apply (Hok "lower_bound" v2); [decide_elem|].
Qed.

Lemma field_failed_read_log_witness :
  ∃ grid n pre,
    supplied loaded_module PICMI_FieldDiagnostic [VRef 5] ∅ "grid" = Some grid
    ∧ n ∈ geometry
    ∧ defaulted loaded_module PICMI_FieldDiagnostic [VRef 5] ∅ n = true
    ∧ lookup_attr (heap session) grid n = Raise AttributeError
    ∧ reads (new loaded_module PICMI_FieldDiagnostic [VRef 5] ∅ session).2
      = reads session ++ pre ++ [(grid, n)]
    ∧ Forall (λ r, ∃ x, lookup_attr (heap session) r.1 r.2 = Ok x) pre.
Proof.
  apply (field_failed_read_log loaded_module PICMI_FieldDiagnostic [VRef 5] ∅
           session).
  - reflexivity.
  - vm_compute. exact eq_refl.
Defined.

(** ** What construction leaves alone *)

(** X5: a constructor call, whether it returns or raises, adds one object
    to the heap and changes no object that was there: the grid, the species
    and the lists passed to it keep their contents and attributes. *)
Theorem new_leaves_existing_objects m c args kwargs s :
  length (heap (new m c args kwargs s).2) = S (length (heap s))
  ∧ (∀ l obj, heap s !! l = Some obj →
              heap (new m c args kwargs s).2 !! l = Some obj)
  ∧ (∀ v n x, lookup_attr (heap s) v n = Ok x →
              lookup_attr (heap (new m c args kwargs s).2) v n = Ok x).
Proof.
  destruct (new_heap m c args kwargs s) as [attrs ->]. split; [|split].
  - rewrite length_app. simpl. lia.
  - intros l obj Hl. by apply lookup_app_l_Some.
  - intros v n x. unfold lookup_attr. destruct v as [| | | |l]; try done.
    destruct (heap s !! l) as [obj|] eqn:Hl; [|done].
    by rewrite (lookup_app_l_Some _ _ _ _ Hl).
Qed.

Lemma new_leaves_existing_objects_witness :
  lookup_attr
    (heap (new loaded_module PICMI_FieldDiagnostic [the_grid] ∅ session).2)
    the_grid "upper_bound" = Ok (VRef 7).
Proof.
  refine (proj2 (proj2 (new_leaves_existing_objects loaded_module
                          PICMI_FieldDiagnostic [the_grid] ∅ session))
            the_grid "upper_bound" (VRef 7) _).
  reflexivity.
Defined.

(** ** Arguments stored as passed *)

(** X6: for each of the five classes, an argument passed for a parameter
    (positionally or by keyword) is the attribute of that name on the
    instance returned; for the geometry parameters this holds when the
    argument is not [None]. *)
Theorem explicit_arguments_stored_verbatim m c args kwargs s o s' n v :
  n ∈ param_names c →
  n ≠ "self" →
  supplied m c args kwargs n = Some v →
  (n ∈ geometry → v ≠ VNone) →
  new m c args kwargs s = (Ok o, s') →
  lookup_attr (heap s') o n = Ok v.
Proof.
  intros Hn Hs Hv Hgeo Hnew.
  destruct (decide (n ∈ geometry)) as [Hg|Hg].
  - destruct (new_Ok_bound _ _ _ _ _ _ _ Hnew) as [b Hb].
    destruct (is_field c) eqn:Hc.
    + destruct (field_geometry_stored _ _ _ _ _ _ Hc Hb _ _ _ Hnew Hg)
        as (w & Hw & Hl & _).
      destruct (field_geometry_explicit _ _ _ _ _ _ Hc Hb (heap s) _ _
                  Hg Hv (Hgeo Hg)) as [Hexp _].
      congruence.
    + exfalso. unfold geometry in Hg. set_unfold in Hg.
      destruct Hg as [->|[->|[->|[]]]]; destruct c; try discriminate;
        revert Hn; decide_not_elem.
  - destruct (new_stored_param _ _ _ _ _ _ _ n Hnew) as (w & Hw & Hl);
      [done..|].
    rewrite Hv in Hw. congruence.
Qed.

Lemma explicit_arguments_stored_verbatim_witness :
  lookup_attr
    (heap (new loaded_module PICMI_LabFrameParticleDiagnostic
             [VInt 20; VInt 3; VRef 8] {["write_dir" := VStr "lab"]}
             session).2)
    (VRef 9) "species" = Ok (VRef 8).
Proof.
  refine (explicit_arguments_stored_verbatim loaded_module
            PICMI_LabFrameParticleDiagnostic [VInt 20; VInt 3; VRef 8]
            {["write_dir" := VStr "lab"]} session (VRef 9) _ "species"
            (VRef 8) _ _ _ _ _).
  - decide_elem.
  - discriminate.
  - reflexivity.
  - discriminate.
  - vm_compute. exact eq_refl.
Defined.



(** ** The shared default list *)

(** X8: the default of [data_list] is one list object per class, built when
    the module runs, and it is stored by reference: two instances of a class
    constructed one after the other without [data_list] are distinct objects
    whose [data_list] attributes are the same list object, whatever that
    list holds by then. *)
Theorem default_data_list_is_shared m c args1 kw1 args2 kw2 s o1 s1 o2 s2 :
  supplied m c args1 kw1 "data_list" = None →
  supplied m c args2 kw2 "data_list" = None →
  new m c args1 kw1 s = (Ok o1, s1) →
  new m c args2 kw2 s1 = (Ok o2, s2) →
  o1 ≠ o2
  ∧ lookup_attr (heap s2) o1 "data_list" = Ok (m c)
  ∧ lookup_attr (heap s2) o2 "data_list" = Ok (m c).
Proof.
  intros Hom1 Hom2 Hnew1 Hnew2.
  assert (Hdef : ∀ args kw st o st',
            supplied m c args kw "data_list" = None →
            new m c args kw st = (Ok o, st') →
            lookup_attr (heap st') o "data_list" = Ok (m c)).
  { intros args kw st o st' Hom Hnew.
    destruct (new_stored_param _ _ _ _ _ _ _ "data_list" Hnew)
      as (v & Hv & Hl); [destruct c; decide_elem | decide_not_elem | done |].
    rewrite Hl, Hom in *. f_equal. destruct c; by injection Hv. }
  split; [|split].
  - destruct (new_Ok_bound _ _ _ _ _ _ _ Hnew1) as [b1 Hb1].
    destruct (new_Ok_bound _ _ _ _ _ _ _ Hnew2) as [b2 Hb2].
    destruct (new_success _ _ _ _ _ _ _ _ Hb1 Hnew1) as (? & -> & Hh & _).
    destruct (new_success _ _ _ _ _ _ _ _ Hb2 Hnew2) as (? & -> & _).
    rewrite Hh, length_app. simpl. intros [= Heq]. lia.
  - pose proof (new_heap m c args2 kw2 s1) as [attrs Hh].
    rewrite Hnew2 in Hh. simpl in Hh. rewrite Hh.
    pose proof (Hdef _ _ _ _ _ Hom1 Hnew1) as Hl.
    unfold lookup_attr in *. destruct o1 as [| | | |l]; try done.
    destruct (heap s1 !! l) as [obj|] eqn:El; [|done].
    by rewrite (lookup_app_l_Some _ _ _ _ El).
  - by eapply Hdef.
Qed.

Lemma default_data_list_is_shared_witness :
  VRef 9 ≠ VRef 10
  ∧ lookup_attr
      (heap (new loaded_module PICMI_ParticleDiagnostic [VInt 5] ∅
               (new loaded_module PICMI_ParticleDiagnostic [] ∅ session).2).2)
      (VRef 9) "data_list" = Ok (VRef 2)
  ∧ lookup_attr
      (heap (new loaded_module PICMI_ParticleDiagnostic [VInt 5] ∅
               (new loaded_module PICMI_ParticleDiagnostic [] ∅ session).2).2)
      (VRef 10) "data_list" = Ok (VRef 2).
Proof.
  refine (default_data_list_is_shared loaded_module PICMI_ParticleDiagnostic
            [] ∅ [VInt 5] ∅ session (VRef 9)
            (new loaded_module PICMI_ParticleDiagnostic [] ∅ session).2
            (VRef 10) _ _ _ _ _).
  - reflexivity.
  - reflexivity.
  - vm_compute. exact eq_refl.
  - vm_compute. exact eq_refl.
Defined.

(** ** Positional and keyword arguments *)

Lemma param_names_NoDup c : NoDup (param_names c).
Proof. destruct c; apply (bool_decide_unpack _); vm_compute; exact I. Qed.

(** Keywords naming a parameter never reach [kw]. *)
Lemma extras_insert_param ps (kwargs : gmap string pyval) n v :
  n ∈ pname <$> ps → extras ps (<[n := v]> kwargs) = extras ps kwargs.
Proof.
  intros Hn. apply map_eq. intros k. rewrite !extras_lookup.
  case_decide as Hk; [done|]. apply lookup_insert_ne. by intros ->.
Qed.

(** The next free parameter may be passed positionally or by its name. *)
Lemma bind_params_positional_keyword ps args (kwargs : gmap string pyval) p v :
  NoDup (pname <$> ps) →
  ps !! length args = Some p →
  kwargs !! pname p = None →
  bind_params ps (args ++ [v]) kwargs
  = bind_params ps args (<[pname p := v]> kwargs).
Proof.
  revert args. induction ps as [|q ps IH]; intros args Hnd Hp Hk; [done|].
  apply NoDup_cons in Hnd as [Hq Hnd]. destruct args as [|a args]; simpl in *.
  - injection Hp as ->. rewrite Hk, lookup_insert_eq.
    rewrite (bind_params_ext ps [] (<[pname p := v]> kwargs) kwargs); [done|].
    intros r Hr. apply lookup_insert_ne. intros Heq. apply Hq.
    rewrite Heq. by apply list_elem_of_fmap_2.
  - assert (Hne : pname p ≠ pname q).
    { intros Heq. apply Hq. rewrite <- Heq.
      apply list_elem_of_fmap_2. by eapply list_elem_of_lookup_2. }
    rewrite lookup_insert_ne by done.
    destruct (kwargs !! pname q); [done|]. by rewrite IH.
Qed.

(** X9: for each of the five constructors, passing the next parameter of
    the signature as one more positional argument or as a keyword of that
    parameter's name is the same call: same outcome, same heap, same reads. *)
Theorem positional_or_keyword m c args kwargs s p v :
  signature m c !! length args = Some p →
  kwargs !! pname p = None →
  new m c (args ++ [v]) kwargs s
  = new m c args (<[pname p := v]> kwargs) s.
Proof.
  intros Hp Hk. rewrite !new_run. cbv zeta. unfold bound_args.
  assert (Hin : pname p ∈ pname <$> fparams (init_of m c)).
  { rewrite fparams_self. apply list_elem_of_further, list_elem_of_fmap_2.
    by eapply list_elem_of_lookup_2. }
  rewrite (app_comm_cons args [v] (VRef (length (heap s)))).
  rewrite (bind_params_positional_keyword _ _ _ p).
  - by rewrite extras_insert_param.
  - rewrite param_names_fparams. apply param_names_NoDup.
  - by rewrite fparams_self.
  - done.
Qed.

Lemma positional_or_keyword_witness :
  new loaded_module PICMI_FieldDiagnostic ([the_grid] ++ [VInt 4]) ∅ session
  = new loaded_module PICMI_FieldDiagnostic [the_grid] (<["period" := VInt 4]> ∅)
      session.
Proof.
  apply (positional_or_keyword loaded_module PICMI_FieldDiagnostic [the_grid]
           ∅ session (Param "period" (Some (VInt 1))) (VInt 4)).
  - reflexivity.
  - reflexivity.
Defined.

(** ** Passing the stored geometry back *)

Lemma passed_insert_ne ps args (kwargs : gmap string pyval) k v n :
  n ≠ k → passed ps args (<[k := v]> kwargs) n = passed ps args kwargs n.
Proof.
  intros Hne. revert args. induction ps as [|p ps IH]; intros args; [done|].
  simpl. case_decide; [|done].
  destruct args; [|done]. by apply lookup_insert_ne.
Qed.

(** A keyword added for a parameter the call left out binds that parameter
    to the keyword's value and nothing else changes. *)
Lemma bind_params_insert_omitted ps args (kwargs : gmap string pyval) b n v :
  bind_params ps args kwargs = Ok b →
  passed ps args kwargs n = None →
  bind_params ps args (<[n := v]> kwargs)
  = Ok (if decide (n ∈ pname <$> ps) then <[n := v]> b else b).
Proof.
  revert args b. induction ps as [|p ps IH]; intros args b Hb Hpass.
  - simpl in *. by destruct args.
  - simpl in Hb, Hpass. simpl bind_params.
    destruct (decide (pname p = n)) as [Hpn|Hpn].
    + destruct args as [|a args]; [|discriminate].
      rewrite Hpn, lookup_insert_eq. rewrite Hpn, Hpass in Hb.
      destruct (pdefault p) as [d|]; [|discriminate].
      destruct (bind_params ps [] kwargs) as [b0|] eqn:Hb0; [|discriminate].
      injection Hb as <-.
      assert (Hp0 : passed ps [] kwargs n = None).
      { clear -Hpass. induction ps as [|q ps IH]; [done|]. simpl.
        by case_decide. }
      rewrite (IH [] b0 Hb0 Hp0).
      rewrite (decide_True (P := n ∈ pname <$> p :: ps))
        by (rewrite <- Hpn; apply list_elem_of_here).
      f_equal. case_decide; by rewrite ?insert_insert_eq.
    + assert (Hk : (<[n := v]> kwargs) !! pname p = kwargs !! pname p)
        by (apply lookup_insert_ne; congruence).
      rewrite Hk.
      assert (Hmem : n ∈ pname <$> p :: ps ↔ n ∈ pname <$> ps).
      { split; [|apply list_elem_of_further].
        intros H. apply elem_of_cons in H as [H|H]; [congruence|done]. }
      destruct args as [|a args].
      * destruct (kwargs !! pname p) as [x|], (pdefault p) as [d|];
          try discriminate;
          (destruct (bind_params ps [] kwargs) as [b0|] eqn:Hb0;
             [|discriminate]);
          injection Hb as <-; rewrite (IH [] b0 Hb0 Hpass); f_equal;
          repeat case_decide; try tauto; try done;
          by rewrite insert_insert_ne.
      * destruct (kwargs !! pname p) as [x|]; [discriminate|].
        destruct (bind_params ps args kwargs) as [b0|] eqn:Hb0; [|discriminate].
        injection Hb as <-. rewrite (IH args b0 Hb0 Hpass). f_equal.
        repeat case_decide; try tauto; try done.
        by rewrite insert_insert_ne.
Qed.

Lemma passed_fparams m c self args (kwargs : gmap string pyval) n :
  n ≠ "self" →
  passed (fparams (init_of m c)) (self :: args) kwargs n
  = supplied m c args kwargs n.
Proof.
  intros Hn. rewrite fparams_self. simpl. by rewrite decide_False.
Qed.

(** The same for a constructor call and a parameter other than [self]. *)
Lemma bound_args_insert_omitted m c s args (kwargs : gmap string pyval) b n v :
  bound_args m c s args kwargs = Ok b →
  n ∈ param_names c → n ≠ "self" →
  supplied m c args kwargs n = None →
  bound_args m c s args (<[n := v]> kwargs) = Ok (<[n := v]> b).
Proof.
  intros Hb Hn Hs Hom. unfold bound_args in *.
  rewrite (bind_params_insert_omitted _ _ _ b) by (by rewrite ?passed_fparams).
  by rewrite param_names_fparams, decide_True.
Qed.

(** X10: when a simulation-frame field diagnostic was constructed with its
    three geometry parameters left out, the same call with the three stored
    attributes passed back as keywords returns the same instance in the same
    heap: taking the geometry from the grid and passing the grid's values
    are interchangeable. *)
Theorem stored_geometry_round_trip m c args kwargs s o s' v1 v2 v3 :
  is_field c = true →
  (∀ n, n ∈ geometry → supplied m c args kwargs n = None) →
  new m c args kwargs s = (Ok o, s') →
  lookup_attr (heap s') o "number_of_cells" = Ok v1 →
  lookup_attr (heap s') o "lower_bound" = Ok v2 →
  lookup_attr (heap s') o "upper_bound" = Ok v3 →
  (new m c args
     (<["number_of_cells" := v1]> (<["lower_bound" := v2]>
      (<["upper_bound" := v3]> kwargs))) s).1 = Ok o
  ∧ heap (new m c args
            (<["number_of_cells" := v1]> (<["lower_bound" := v2]>
             (<["upper_bound" := v3]> kwargs))) s).2 = heap s'.
Proof.
  intros Hc Hom Hnew L1 L2 L3.
  destruct (new_Ok_bound _ _ _ _ _ _ _ Hnew) as [b Hb].
  assert (Hpar : ∀ n, n ∈ geometry → n ∈ param_names c).
  { intros n Hn. unfold geometry in Hn. set_unfold in Hn.
    destruct Hn as [->|[->|[->|[]]]]; destruct c; try discriminate;
      decide_elem. }
  (* the three keywords bind on top of the original binding *)
  pose proof (bound_args_insert_omitted _ _ _ _ _ _ "upper_bound" v3 Hb
                (Hpar "upper_bound" ltac:(decide_elem)) ltac:(done)
                (Hom "upper_bound" ltac:(decide_elem))) as Hb3.
  assert (Hom2 : supplied m c args (<["upper_bound" := v3]> kwargs)
                   "lower_bound" = None).
  { unfold supplied. rewrite passed_insert_ne by done.
    apply (Hom "lower_bound"). decide_elem. }
  pose proof (bound_args_insert_omitted _ _ _ _ _ _ "lower_bound" v2 Hb3
                (Hpar "lower_bound" ltac:(decide_elem)) ltac:(done) Hom2) as Hb2.
  assert (Hom1 : supplied m c args
                   (<["lower_bound" := v2]> (<["upper_bound" := v3]> kwargs))
                   "number_of_cells" = None).
  { unfold supplied. rewrite !passed_insert_ne by done.
    apply (Hom "number_of_cells"). decide_elem. }
  pose proof (bound_args_insert_omitted _ _ _ _ _ _ "number_of_cells" v1 Hb2
                (Hpar "number_of_cells" ltac:(decide_elem)) ltac:(done) Hom1) as Hb1.
  (* what the original call read from the grid *)
  assert (Hread : ∀ n v, n ∈ geometry →
            lookup_attr (heap s') o n = Ok v →
            geometry_of (heap s) b n = Ok v
            ∧ lookup_attr (heap s) (b !!! "grid") n = Ok v).
  { intros n v Hn Hl.
    destruct (field_geometry_stored _ _ _ _ _ _ Hc Hb _ _ _ Hnew Hn)
      as (w & Hw & Hlw & _).
    assert (w = v) as -> by congruence. split; [done|].
    unfold geometry_of, geometry_value in Hw.
    by rewrite (field_geometry_bound _ _ _ _ _ _ Hc Hb _ Hn), (Hom n Hn)
      in Hw. }
  destruct (Hread "number_of_cells" v1 ltac:(decide_elem) L1) as [G1 R1].
  destruct (Hread "lower_bound" v2 ltac:(decide_elem) L2) as [G2 R2].
  destruct (Hread "upper_bound" v3 ltac:(decide_elem) L3) as [G3 R3].
  rewrite (new_field_run _ _ _ _ _ _ Hc Hb) in Hnew. cbv zeta in Hnew.
  rewrite G1, G2, G3 in Hnew. injection Hnew as <- <-.
  rewrite (new_field_run _ _ _ _ _ _ Hc Hb1). cbv zeta.
  unfold geometry_of, geometry_value.
  rewrite !extras_insert_param
    by (rewrite param_names_fparams; apply Hpar; decide_elem).
  repeat first [ rewrite lookup_total_insert_eq
               | rewrite lookup_total_insert_ne by done ].
  rewrite R1, R2, R3.
  by destruct (is_None v1), (is_None v2), (is_None v3).
Qed.

Lemma stored_geometry_round_trip_witness :
  (new loaded_module PICMI_FieldDiagnostic [the_grid]
     (<["number_of_cells" := VRef 5]> (<["lower_bound" := VRef 6]>
      (<["upper_bound" := VRef 7]> ∅))) session).1 = Ok (VRef 9)
  ∧ heap (new loaded_module PICMI_FieldDiagnostic [the_grid]
            (<["number_of_cells" := VRef 5]> (<["lower_bound" := VRef 6]>
             (<["upper_bound" := VRef 7]> ∅))) session).2
    = heap (new loaded_module PICMI_FieldDiagnostic [the_grid] ∅ session).2.
Proof.
  apply (stored_geometry_round_trip loaded_module PICMI_FieldDiagnostic
           [the_grid] ∅ session (VRef 9)
           (new loaded_module PICMI_FieldDiagnostic [the_grid] ∅ session).2
           (VRef 5) (VRef 6) (VRef 7)).
  - reflexivity.
  - intros n Hn. unfold geometry in Hn. set_unfold in Hn.
    destruct Hn as [->|[->|[->|[]]]]; reflexivity.
  - vm_compute. exact eq_refl.
  - vm_compute. exact eq_refl.
  - vm_compute. exact eq_refl.
  - vm_compute. exact eq_refl.
Defined.

(** ** The default lists over a whole run *)

(** X12: once the module has run, no sequence of constructor calls, of any
    of the five classes, with any arguments, returning or raising, changes a
    default list: each still holds the items written in its signature. *)
Theorem defaults_kept_by_constructions s0 m s1 calls :
  exec_module s0 = (Ok m, s1) →
  defaults_intact m (construct_all m calls s1).
Proof.
  intros Hexec. pose proof (exec_module_defaults_intact _ _ _ Hexec) as Hint.
  clear Hexec. revert s1 Hint.
  induction calls as [|[[c args] kwargs] calls IH]; intros s1 Hint; [done|].
  simpl. by apply IH, new_preserves_defaults.
Qed.

Lemma defaults_kept_by_constructions_witness :
  defaults_intact loaded_module
    (construct_all loaded_module
       [ (PICMI_FieldDiagnostic, [VNone], ∅);
         (PICMI_ParticleDiagnostic, [], {["warpx_tag" := VInt 1]});
         (PICMI_LabFrameFieldDiagnostic, [VInt 20; VInt 3], ∅) ]
       (exec_module empty_state).2).
Proof.
  apply (defaults_kept_by_constructions empty_state loaded_module
           (exec_module empty_state).2).
  reflexivity.
Defined.
